(** * A shallow embedding of [vector.py]

    The module under verification is a single Python class, [Vector], over
    [decimal.Decimal] coordinates, with the decimal context set to three
    significant digits ([getcontext().prec = 3]).

    Python values are embedded as follows.
    - A [Decimal] is a sign, a coefficient and an exponent, or an infinity,
      or a NaN; arithmetic is the context arithmetic of CPython's [decimal]
      module (round-half-even to [prec] digits, [Emax = 999999],
      [Emin = -999999], the signals [InvalidOperation], [DivisionByZero]
      and [Overflow] trapped, i.e. raised as exceptions).
    - A Python [float] is an IEEE-754 binary64 number, [spec_float] of the
      standard library, with correctly rounded operations.
    - A raised exception is a class together with the text [str(e)]; a
      computation that may raise returns a [result].
    - A [Vector] is a record of its two attributes.

    The Python is CPython 3, whose [decimal] is the C implementation: its
    integer power rounds twice, and the texts of the exceptions are its
    own. A numeric string given as a coordinate is represented by the
    [Decimal] it denotes. The method [__str__] is not embedded. *)

From Stdlib Require Import ZArith List String Bool Lia SpecFloat.
Import ListNotations.
Open Scope string_scope.
Open Scope Z_scope.

(** ** Exceptions *)

Inductive exn_class :=
| Exception
| ValueError
| TypeError
| ZeroDivisionError
| DivisionByZero
| InvalidOperation
| Overflow
| OverflowError.

Definition exn_class_eqb (a b : exn_class) : bool :=
  match a, b with
  | Exception, Exception | ValueError, ValueError | TypeError, TypeError
  | ZeroDivisionError, ZeroDivisionError | DivisionByZero, DivisionByZero
  | InvalidOperation, InvalidOperation | Overflow, Overflow
  | OverflowError, OverflowError => true
  | _, _ => false
  end.

(** [issubclass c d]: every class derives from [Exception];
    [decimal.DivisionByZero] derives from [ZeroDivisionError]. *)
Definition issubclass (c d : exn_class) : bool :=
  match d with
  | Exception => true
  | ZeroDivisionError =>
      match c with ZeroDivisionError | DivisionByZero => true | _ => false end
  | _ => exn_class_eqb c d
  end.

Record exn := mkExn { class_of : exn_class; str : string }.

Inductive result (A : Type) :=
| Ok (a : A)
| Raise (e : exn).
Arguments Ok {A} a.
Arguments Raise {A} e.

Definition bind {A B} (m : result A) (k : A -> result B) : result B :=
  match m with
  | Ok a => k a
  | Raise e => Raise e
  end.

Notation "x <- m ;; k" := (bind m (fun x => k))
  (at level 61, m at next level, right associativity).

(** [try: body except c1 as e: h1 e except c2 as e: h2 e ...]: the first
    clause whose class the exception is an instance of handles it; an
    exception raised by a handler is not caught by the other clauses. *)
Fixpoint dispatch {A} (clauses : list (exn_class * (exn -> result A))) (e : exn)
  : result A :=
  match clauses with
  | [] => Raise e
  | (c, h) :: rest => if issubclass (class_of e) c then h e else dispatch rest e
  end.

Definition try_except {A} (body : result A)
  (clauses : list (exn_class * (exn -> result A))) : result A :=
  match body with
  | Ok a => Ok a
  | Raise e => dispatch clauses e
  end.

(** A list comprehension [[f x for x in xs]] whose element expression may
    raise: elements are evaluated left to right and the first exception
    ends the comprehension. *)
Fixpoint comprehension {A B} (f : A -> result B) (xs : list A) : result (list B) :=
  match xs with
  | [] => Ok []
  | x :: rest => y <- f x ;; ys <- comprehension f rest ;; Ok (y :: ys)
  end.

(** ** Decimal numbers *)

Inductive Decimal :=
| Finite (sign : bool) (coeff : N) (exp : Z)
| Infinity (sign : bool)
| NaN (signaling : bool).

Module Dec.

Definition Emax : Z := 999999.
Definition Emin : Z := -999999.

(** The text of a trapped signal, as [str(e)] gives it. *)
Definition signal (c : exn_class) : exn :=
  mkExn c
    match c with
    | DivisionByZero => "[<class 'decimal.DivisionByZero'>]"
    | Overflow => "[<class 'decimal.Overflow'>]"
    | _ => "[<class 'decimal.InvalidOperation'>]"
    end.

Fixpoint digits_aux (fuel : nat) (n : Z) : Z :=
  match fuel with
  | O => 1
  | S fuel' => if n <? 10 then 1 else 1 + digits_aux fuel' (n / 10)
  end.

(** Number of decimal digits of a coefficient; [1] for zero. *)
Definition ndigits (n : Z) : Z := digits_aux (Z.to_nat (Z.log2 n)) n.

(** [c] without its [k] low digits, rounded half to even. *)
Definition round_half_even (c k : Z) : Z :=
  let p := 10 ^ k in
  let q := c / p in
  match 2 * (c mod p) ?= p with
  | Lt => q
  | Gt => q + 1
  | Eq => if Z.even q then q else q + 1
  end.

Section Context.

(** The precision of the context: [3] for the module, [6] inside the
    integer power (see [pow2]). *)
Variable prec : Z.

Definition Etiny : Z := Emin - prec + 1.
Definition Etop : Z := Emax - prec + 1.

(** Rounding of an exact finite result to the context. *)
Definition fix_finite (s : bool) (c e : Z) : result Decimal :=
  if c =? 0 then
    Ok (Finite s 0 (Z.min (Z.max e Etiny) Emax))
  else
    let exp_min := ndigits c + e - prec in
    if Etop <? exp_min then Raise (signal Overflow)
    else
      let exp_min := Z.max exp_min Etiny in
      if e <? exp_min then
        let digits := ndigits c + e - exp_min in
        let coeff :=
          if digits <? 0 then 0 else round_half_even c (exp_min - e) in
        let '(coeff, exp_min) :=
          if prec <? ndigits coeff then (coeff / 10, exp_min + 1)
          else (coeff, exp_min) in
        if Etop <? exp_min then Raise (signal Overflow)
        else Ok (Finite s (Z.to_N coeff) exp_min)
      else Ok (Finite s (Z.to_N c) e).

(** The operand NaN of a binary operation, if any: a signaling NaN
    raises, a quiet one is the result. *)
Definition check_nans (a b : Decimal) : option (result Decimal) :=
  match a, b with
  | NaN true, _ | _, NaN true => Some (Raise (signal InvalidOperation))
  | NaN false, _ | _, NaN false => Some (Ok (NaN false))
  | _, _ => None
  end.

Definition signed (s : bool) (c : N) : Z :=
  if s then - Z.of_N c else Z.of_N c.

Definition add (a b : Decimal) : result Decimal :=
  match check_nans a b with
  | Some r => r
  | None =>
      match a, b with
      | Infinity sa, Infinity sb =>
          if Bool.eqb sa sb then Ok (Infinity sa)
          else Raise (signal InvalidOperation)
      | Infinity sa, _ => Ok (Infinity sa)
      | _, Infinity sb => Ok (Infinity sb)
      | Finite s1 c1 e1, Finite s2 c2 e2 =>
          let e := Z.min e1 e2 in
          let v := signed s1 c1 * 10 ^ (e1 - e) + signed s2 c2 * 10 ^ (e2 - e) in
          if v =? 0 then fix_finite (s1 && s2) 0 e
          else fix_finite (v <? 0) (Z.abs v) e
      | _, _ => Raise (signal InvalidOperation)
      end
  end.

Definition copy_negate (a : Decimal) : Decimal :=
  match a with
  | Finite s c e => Finite (negb s) c e
  | Infinity s => Infinity (negb s)
  | NaN sg => NaN sg
  end.

Definition sub (a b : Decimal) : result Decimal :=
  match check_nans a b with
  | Some r => r
  | None => add a (copy_negate b)
  end.

Definition is_zero_coeff (a : Decimal) : bool :=
  match a with
  | Finite _ 0%N _ => true
  | _ => false
  end.

Definition mul (a b : Decimal) : result Decimal :=
  match check_nans a b with
  | Some r => r
  | None =>
      match a, b with
      | Infinity sa, Infinity sb => Ok (Infinity (xorb sa sb))
      | Infinity sa, Finite sb cb _ =>
          if (cb =? 0)%N then Raise (signal InvalidOperation)
          else Ok (Infinity (xorb sa sb))
      | Finite sa ca _, Infinity sb =>
          if (ca =? 0)%N then Raise (signal InvalidOperation)
          else Ok (Infinity (xorb sa sb))
      | Finite s1 c1 e1, Finite s2 c2 e2 =>
          fix_finite (xorb s1 s2) (Z.of_N c1 * Z.of_N c2) (e1 + e2)
      | _, _ => Raise (signal InvalidOperation)
      end
  end.

(** Trailing zeros of an exact quotient are removed while the exponent
    is below the ideal one. *)
Fixpoint strip_to_ideal (fuel : nat) (c e ideal : Z) : Z * Z :=
  match fuel with
  | O => (c, e)
  | S fuel' =>
      if (e <? ideal) && (c mod 10 =? 0)
      then strip_to_ideal fuel' (c / 10) (e + 1) ideal
      else (c, e)
  end.

Definition div (a b : Decimal) : result Decimal :=
  match check_nans a b with
  | Some r => r
  | None =>
      match a, b with
      | Infinity _, Infinity _ => Raise (signal InvalidOperation)
      | Infinity sa, Finite sb _ _ => Ok (Infinity (xorb sa sb))
      | Finite sa _ _, Infinity sb => Ok (Finite (xorb sa sb) 0 Etiny)
      | Finite s1 c1 e1, Finite s2 c2 e2 =>
          let s := xorb s1 s2 in
          if (c2 =? 0)%N then
            if (c1 =? 0)%N then Raise (signal InvalidOperation)
            else Raise (signal DivisionByZero)
          else if (c1 =? 0)%N then fix_finite s 0 (e1 - e2)
          else
            let c1 := Z.of_N c1 in
            let c2 := Z.of_N c2 in
            let shift := ndigits c2 - ndigits c1 + prec + 1 in
            let e := e1 - e2 - shift in
            let '(q, r) :=
              if 0 <=? shift then Z.div_eucl (c1 * 10 ^ shift) c2
              else Z.div_eucl c1 (c2 * 10 ^ (- shift)) in
            if r =? 0 then
              let '(q, e) :=
                strip_to_ideal (Z.to_nat (ndigits q)) q e (e1 - e2) in
              fix_finite s q e
            else fix_finite s (if q mod 5 =? 0 then q + 1 else q) e
      | _, _ => Raise (signal InvalidOperation)
      end
  end.

(** Unary minus: the negation of zero is positive zero, and the result
    is rounded to the context. *)
Definition neg (a : Decimal) : result Decimal :=
  match a with
  | NaN true => Raise (signal InvalidOperation)
  | NaN false => Ok (NaN false)
  | Infinity s => Ok (Infinity (negb s))
  | Finite s c e =>
      fix_finite (if (c =? 0)%N then false else negb s) (Z.of_N c) e
  end.

End Context.

(** [x ** 2]. The integer power squares in a working context of
    [prec + 3] digits and then rounds the square to [prec] digits. *)
Definition pow2 (prec : Z) (a : Decimal) : result Decimal :=
  match a with
  | NaN true => Raise (signal InvalidOperation)
  | NaN false => Ok (NaN false)
  | Infinity _ => Ok (Infinity false)
  | Finite _ c e =>
      if (c =? 0)%N then Ok (Finite false 0 0)
      else
        r <- fix_finite (prec + 3) false (Z.of_N c * Z.of_N c) (e + e) ;;
        match r with
        | Finite _ c' e' => fix_finite prec false (Z.of_N c') e'
        | _ => Ok r
        end
  end.

(** Equality of values; a NaN is equal to nothing. *)
Definition eqb (a b : Decimal) : bool :=
  match a, b with
  | NaN _, _ | _, NaN _ => false
  | Infinity sa, Infinity sb => Bool.eqb sa sb
  | Infinity _, _ | _, Infinity _ => false
  | Finite s1 c1 e1, Finite s2 c2 e2 =>
      let e := Z.min e1 e2 in
      signed s1 c1 * 10 ^ (e1 - e) =? signed s2 c2 * 10 ^ (e2 - e)
  end.

Definition is_snan (a : Decimal) : bool :=
  match a with
  | NaN true => true
  | _ => false
  end.

(** [x == y]: comparison by value, except that a signaling NaN raises. *)
Definition eq (a b : Decimal) : result bool :=
  if is_snan a || is_snan b then Raise (signal InvalidOperation)
  else Ok (eqb a b).

(** [bool(x)]. *)
Definition truth (a : Decimal) : bool := negb (is_zero_coeff a).

(** [abs(x)]: the sign is dropped and the result is rounded to the
    context. *)
Definition abs (prec : Z) (a : Decimal) : result Decimal :=
  match a with
  | NaN true => Raise (signal InvalidOperation)
  | NaN false => Ok (NaN false)
  | Infinity _ => Ok (Infinity false)
  | Finite _ c e => fix_finite prec false (Z.of_N c) e
  end.

(** [x < y]: comparison by value; any NaN raises. *)
Definition lt (a b : Decimal) : result bool :=
  match a, b with
  | NaN _, _ | _, NaN _ => Raise (signal InvalidOperation)
  | Infinity sa, Infinity sb => Ok (sa && negb sb)
  | Infinity sa, Finite _ _ _ => Ok sa
  | Finite _ _ _, Infinity sb => Ok (negb sb)
  | Finite s1 c1 e1, Finite s2 c2 e2 =>
      let e := Z.min e1 e2 in
      Ok (signed s1 c1 * 10 ^ (e1 - e) <? signed s2 c2 * 10 ^ (e2 - e))
  end.

End Dec.

(** ** Floats *)

Definition float := spec_float.

Module Flt.

Definition prec : Z := 53.
Definition emax : Z := 1024.

Definition zero : float := S754_zero false.
Definition nan : float := S754_nan.

Definition is_nan (x : float) : bool :=
  match x with S754_nan => true | _ => false end.

Definition is_infinite (x : float) : bool :=
  match x with S754_infinity _ => true | _ => false end.

Definition is_finite (x : float) : bool :=
  match x with S754_zero _ | S754_finite _ _ _ => true | _ => false end.

Definition is_zero (x : float) : bool :=
  match x with S754_zero _ => true | _ => false end.

Definition mul : float -> float -> float := SFmul prec emax.
Definition div : float -> float -> float := SFdiv prec emax.
Definition add : float -> float -> float := SFadd prec emax.
Definition sqrt : float -> float := SFsqrt prec emax.
Definition ltb : float -> float -> bool := SFltb.
Definition eqb : float -> float -> bool := SFeqb.
Definition abs : float -> float := SFabs.

(** The float nearest to [n / d] (ties to even), for [n], [d] positive. *)
Definition of_ratio (s : bool) (n d : Z) : float :=
  let '(q, e, l) := SFdiv_core_binary prec emax n 0 d 0 in
  binary_round_aux prec emax s q e l.

(** The float nearest to an integer. *)
Definition of_Z (z : Z) : float := binary_normalize prec emax z 0 false.

(** The float nearest to [(-1)^s * c * 10^e]: the value of a decimal
    literal, and of [float(d)] for a finite [Decimal]. Beyond the bounds
    tested first the result is an infinity or a zero whatever the
    digits. *)
Definition of_decimal (s : bool) (c e : Z) : float :=
  if c =? 0 then S754_zero s
  else
    let adjusted := e + Dec.ndigits c - 1 in
    if 310 <=? adjusted then S754_infinity s
    else if adjusted <? -330 then S754_zero s
    else if 0 <=? e then of_ratio s (c * 10 ^ e) 1
    else of_ratio s c (10 ^ (- e)).

(** [m / 2^k] in lowest terms. *)
Fixpoint lowest_terms (m : positive) (k : nat) : positive * nat :=
  match k, m with
  | S k', xO m' => lowest_terms m' k'
  | _, _ => (m, k)
  end.

(** [Decimal(x)] for a float: the exact value, [n * 5^k * 10^(-k)] for
    the ratio [n / 2^k] in lowest terms. *)
Definition to_Decimal (x : float) : Decimal :=
  match x with
  | S754_nan => NaN false
  | S754_infinity s => Infinity s
  | S754_zero s => Finite s 0 0
  | S754_finite s m e =>
      if 0 <=? e then Finite s (Z.to_N (Zpos m * 2 ^ e)) 0
      else
        let '(n, k) := lowest_terms m (Z.to_nat (- e)) in
        Finite s (Z.to_N (Zpos n * 5 ^ Z.of_nat k)) (- Z.of_nat k)
  end.

(** Exact comparison of a float with an integer. *)
Definition eq_Z (x : float) (z : Z) : bool :=
  match x with
  | S754_zero _ => z =? 0
  | S754_finite s m e =>
      let v := if s then Zneg m else Zpos m in
      if 0 <=? e then v * 2 ^ e =? z else v =? z * 2 ^ (- e)
  | _ => false
  end.

End Flt.

(** The float literals of the module. *)
Definition pi : float := Flt.of_decimal false 3141592653589793 (-15).
Definition default_tolerance : float := Flt.of_decimal false 1 (-10).

(** ** Python values *)

(** The precision set at import: [getcontext().prec = 3]. *)
Definition prec : Z := 3.

(** A number: the three numeric types the module computes with. *)
Inductive number :=
| PyInt (z : Z)
| PyFloat (f : float)
| PyDecimal (d : Decimal).

(** What a caller may put in a coordinate sequence: a number or [None].
    A numeric string is represented by the [Decimal] it denotes. *)
Inductive scalar :=
| PyNone
| Num (n : number).

(** What a caller may pass to the constructor. *)
Inductive value :=
| Scalar (s : scalar)
| PyList (items : list scalar)
| PyTuple (items : list scalar).

Definition type_name (n : number) : string :=
  match n with
  | PyInt _ => "int"
  | PyFloat _ => "float"
  | PyDecimal _ => "decimal.Decimal"
  end.

Definition Decimal_of_Z (z : Z) : Decimal := Finite (z <? 0) (Z.abs_N z) 0.

(** [Decimal(x)]: exact, no rounding to the context. *)
Definition Decimal_of_number (n : number) : Decimal :=
  match n with
  | PyInt z => Decimal_of_Z z
  | PyFloat f => Flt.to_Decimal f
  | PyDecimal d => d
  end.

Definition Decimal_new (x : scalar) : result Decimal :=
  match x with
  | PyNone =>
      Raise (mkExn TypeError "conversion from NoneType to Decimal is not supported")
  | Num n => Ok (Decimal_of_number n)
  end.

(** [float(x)]. *)
Definition float_of_number (n : number) : result float :=
  match n with
  | PyInt z =>
      let f := Flt.of_Z z in
      if Flt.is_infinite f
      then Raise (mkExn OverflowError "int too large to convert to float")
      else Ok f
  | PyFloat f => Ok f
  | PyDecimal (NaN true) =>
      Raise (mkExn ValueError "cannot convert signaling NaN to float")
  | PyDecimal (NaN false) => Ok Flt.nan
  | PyDecimal (Infinity s) => Ok (S754_infinity s)
  | PyDecimal (Finite s c e) => Ok (Flt.of_decimal s (Z.of_N c) e)
  end.

(** [bool(x)]. *)
Definition truth (x : value) : bool :=
  match x with
  | Scalar PyNone => false
  | Scalar (Num (PyInt z)) => negb (z =? 0)
  | Scalar (Num (PyFloat f)) => negb (Flt.is_zero f)
  | Scalar (Num (PyDecimal d)) => Dec.truth d
  | PyList items | PyTuple items =>
      match items with [] => false | _ => true end
  end.

Definition not_iterable (name : string) : exn :=
  mkExn TypeError ("'" ++ name ++ "' object is not iterable").

(** [for x in coordinates]. *)
Definition iterate (x : value) : result (list scalar) :=
  match x with
  | Scalar PyNone => Raise (not_iterable "NoneType")
  | Scalar (Num n) => Raise (not_iterable (type_name n))
  | PyList items | PyTuple items => Ok items
  end.

(** [len(coordinates)]. *)
Definition len (x : value) : result nat :=
  match x with
  | Scalar PyNone =>
      Raise (mkExn TypeError "object of type 'NoneType' has no len()")
  | Scalar (Num n) =>
      Raise (mkExn TypeError ("object of type '" ++ type_name n ++ "' has no len()"))
  | PyList items | PyTuple items => Ok (List.length items)
  end.

Definition unsupported (op : string) (a b : number) : exn :=
  mkExn TypeError
    ("unsupported operand type(s) for " ++ op ++ ": '" ++ type_name a
       ++ "' and '" ++ type_name b ++ "'").

(** [a + b]: a [Decimal] combines with a [Decimal] or an [int], never
    with a [float]. *)
Definition number_add (a b : number) : result number :=
  match a, b with
  | PyInt x, PyInt y => Ok (PyInt (x + y))
  | PyFloat _, PyDecimal _ | PyDecimal _, PyFloat _ => Raise (unsupported "+" a b)
  | PyInt _, PyDecimal _ | PyDecimal _, PyInt _ | PyDecimal _, PyDecimal _ =>
      d <- Dec.add prec (Decimal_of_number a) (Decimal_of_number b) ;;
      Ok (PyDecimal d)
  | _, _ =>
      x <- float_of_number a ;; y <- float_of_number b ;;
      Ok (PyFloat (Flt.add x y))
  end.

(** [a / b]. *)
Definition number_truediv (a b : number) : result number :=
  match a, b with
  | PyFloat _, PyDecimal _ | PyDecimal _, PyFloat _ => Raise (unsupported "/" a b)
  | PyInt _, PyDecimal _ | PyDecimal _, PyInt _ | PyDecimal _, PyDecimal _ =>
      d <- Dec.div prec (Decimal_of_number a) (Decimal_of_number b) ;;
      Ok (PyDecimal d)
  | PyInt x, PyInt y =>
      if y =? 0 then Raise (mkExn ZeroDivisionError "division by zero")
      else if x =? 0 then Ok (PyFloat (S754_zero (y <? 0)))
      else
        let f := Flt.of_ratio (xorb (x <? 0) (y <? 0)) (Z.abs x) (Z.abs y) in
        if Flt.is_infinite f
        then Raise (mkExn OverflowError "integer division result too large for a float")
        else Ok (PyFloat f)
  | _, _ =>
      x <- float_of_number a ;; y <- float_of_number b ;;
      if Flt.is_zero y
      then Raise (mkExn ZeroDivisionError "float division by zero")
      else Ok (PyFloat (Flt.div x y))
  end.

(** [sum(xs)] of a list of decimals: [0 + x1 + x2 + ...] from the left,
    starting from the [int] zero. *)
Fixpoint sum_from (acc : number) (xs : list Decimal) : result number :=
  match xs with
  | [] => Ok acc
  | x :: rest => acc' <- number_add acc (PyDecimal x) ;; sum_from acc' rest
  end.

Definition sum (xs : list Decimal) : result number := sum_from (PyInt 0) xs.

(** [sum(bs)] of a list of booleans: the number of [True]. *)
Definition sum_bool (bs : list bool) : Z :=
  fold_left (fun acc (b : bool) => acc + (if b then 1 else 0)) bs 0.

(** [a == b] where [b] is the literal [0] or a float. *)
Definition number_eq (a b : number) : bool :=
  match a, b with
  | PyInt x, PyInt y => x =? y
  | PyFloat x, PyFloat y => Flt.eqb x y
  | PyFloat x, PyInt y => Flt.eq_Z x y
  | PyInt x, PyFloat y => Flt.eq_Z y x
  | _, _ => false
  end.

(** [abs(a)]. *)
Definition number_abs (a : number) : result number :=
  match a with
  | PyInt z => Ok (PyInt (Z.abs z))
  | PyFloat f => Ok (PyFloat (Flt.abs f))
  | PyDecimal d => d' <- Dec.abs prec d ;; Ok (PyDecimal d')
  end.

(** [a < tolerance] for a float [tolerance]: an [int] or a [Decimal] is
    compared with the exact value of the float. *)
Definition number_lt_float (a : number) (tolerance : float) : result bool :=
  match a with
  | PyInt z =>
      if Flt.is_nan tolerance then Ok false
      else Dec.lt (Decimal_of_Z z) (Flt.to_Decimal tolerance)
  | PyFloat f => Ok (Flt.ltb f tolerance)
  | PyDecimal d => Dec.lt d (Flt.to_Decimal tolerance)
  end.

(** ** The [math] module *)

(** A one-argument libm function as [math] wraps it: a NaN result for a
    non-NaN argument, or an infinite one for a finite argument, is a
    domain error. *)
Definition math_1 (func : float -> float) (x : number) : result float :=
  x <- float_of_number x ;;
  let r := func x in
  if Flt.is_nan r && negb (Flt.is_nan x)
  then Raise (mkExn ValueError "math domain error")
  else if Flt.is_infinite r && Flt.is_finite x
  then Raise (mkExn ValueError "math domain error")
  else Ok r.

Definition sqrt : number -> result float := math_1 Flt.sqrt.

(** ** The class [Vector] *)

Record Vector := mkVector { coordinates : list Decimal; dimension : nat }.

Definition CANNOT_NORMALIZE_ZERO_VECTOR_MSG : string :=
  "Cannot normalize the zero vector".
Definition NO_UNIQUE_ORTHOGONAL_COMPONENT_MSG : string :=
  "No unique orthogonal component exists".
Definition NO_UNIQUE_PARALLEL_COMPONENT_MSG : string :=
  "No unique parallel component exists".
Definition ONLY_DEFINED_IN_THREE_DIMS_MSG : string :=
  "Cross product can only be defined in three dimensions".

Notation "' pat <- m ;; k" :=
  (bind m (fun x => match x with pat => k end))
  (at level 61, pat pattern, m at next level, right associativity).

Definition __init__ (coordinates : value) : result Vector :=
  try_except
    (if negb (truth coordinates) then Raise (mkExn ValueError "")
     else
       items <- iterate coordinates ;;
       decimals <- comprehension Decimal_new items ;;
       n <- len coordinates ;;
       Ok (mkVector decimals n))
    [ (ValueError,
        fun _ => Raise (mkExn ValueError "The coordinates must be nonempty"));
      (TypeError,
        fun _ => Raise (mkExn TypeError "The coordinates must be an iterable")) ].

(** [Vector(new_coordinates)] for a list of decimals. *)
Definition Vector_of (new_coordinates : list Decimal) : result Vector :=
  __init__ (PyList (map (fun d => Num (PyDecimal d)) new_coordinates)).

(** [self.coordinates == v.coordinates]: tuples are compared item by item
    up to the first difference, then by length. *)
Fixpoint tuple_eq (xs ys : list Decimal) : result bool :=
  match xs, ys with
  | [], [] => Ok true
  | x :: xs', y :: ys' =>
      b <- Dec.eq x y ;; if b then tuple_eq xs' ys' else Ok false
  | _, _ => Ok false
  end.

Definition __eq__ (self v : Vector) : result bool :=
  tuple_eq (coordinates self) (coordinates v).

Definition zip {A B} : list A -> list B -> list (A * B) := @combine A B.

Definition plus (self v : Vector) : result Vector :=
  new_coordinates <-
    comprehension (fun '(x, y) => Dec.add prec x y)
      (zip (coordinates self) (coordinates v)) ;;
  Vector_of new_coordinates.

Definition minus (self v : Vector) : result Vector :=
  new_coordinates <-
    comprehension (fun '(x, y) => Dec.sub prec x y)
      (zip (coordinates self) (coordinates v)) ;;
  Vector_of new_coordinates.

Definition times_scalar (self : Vector) (scalar : number) : result Vector :=
  new_coordinates <-
    comprehension (fun x => Dec.mul prec (Decimal_of_number scalar) x)
      (coordinates self) ;;
  Vector_of new_coordinates.

Definition magnitude (self : Vector) : result float :=
  coordinates_squared <- comprehension (Dec.pow2 prec) (coordinates self) ;;
  total <- sum coordinates_squared ;;
  sqrt total.

Definition normalized (self : Vector) : result Vector :=
  try_except
    (m <- magnitude self ;;
     let magnitude := Decimal_of_number (PyFloat m) in
     q <- Dec.div prec (Finite false 1 0) magnitude ;;
     times_scalar self (PyDecimal q))
    [ (ZeroDivisionError,
        fun _ => Raise (mkExn Exception CANNOT_NORMALIZE_ZERO_VECTOR_MSG)) ].

Definition dot (self v : Vector) : result number :=
  coordinates_multiplied <-
    comprehension (fun '(x, y) => Dec.mul prec x y)
      (zip (coordinates self) (coordinates v)) ;;
  sum coordinates_multiplied.

Definition is_orthogonal_to (self v : Vector) (tolerance : float) : result bool :=
  d <- dot self v ;;
  a <- number_abs d ;;
  number_lt_float a tolerance.

Definition is_zero (self : Vector) (tolerance : float) : result bool :=
  m <- magnitude self ;; Ok (Flt.ltb m tolerance).

Definition component_parallel_to (self basis : Vector) : result Vector :=
  try_except
    (u <- normalized basis ;;
     weight <- dot self u ;;
     times_scalar u weight)
    [ (Exception,
        fun e =>
          if (str e =? CANNOT_NORMALIZE_ZERO_VECTOR_MSG)%string
          then Raise (mkExn Exception NO_UNIQUE_ORTHOGONAL_COMPONENT_MSG)
          else Raise e) ].

Definition component_orthogonal_to (self basis : Vector) : result Vector :=
  try_except
    (v_parallel <- component_parallel_to self basis ;;
     minus self v_parallel)
    [ (Exception,
        fun e =>
          if (str e =? NO_UNIQUE_PARALLEL_COMPONENT_MSG)%string
          then Raise (mkExn Exception NO_UNIQUE_ORTHOGONAL_COMPONENT_MSG)
          else Raise e) ].

(** [a, b, c = t]. *)
Definition unpack3 (t : list Decimal) : result (Decimal * Decimal * Decimal) :=
  match t with
  | [] => Raise (mkExn ValueError "not enough values to unpack (expected 3, got 0)")
  | [_] => Raise (mkExn ValueError "not enough values to unpack (expected 3, got 1)")
  | [_; _] => Raise (mkExn ValueError "not enough values to unpack (expected 3, got 2)")
  | [a; b; c] => Ok (a, b, c)
  | _ => Raise (mkExn ValueError "too many values to unpack (expected 3)")
  end.

Definition cross_product (self v : Vector) : result Vector :=
  try_except
    ('(x_1, y_1, z_1) <- unpack3 (coordinates self) ;;
     '(x_2, y_2, z_2) <- unpack3 (coordinates v) ;;
     a <- Dec.mul prec y_1 z_2 ;;
     b <- Dec.mul prec y_2 z_1 ;;
     c_x <- Dec.sub prec a b ;;
     a <- Dec.mul prec x_1 z_2 ;;
     b <- Dec.mul prec x_2 z_1 ;;
     d <- Dec.sub prec a b ;;
     c_y <- Dec.neg prec d ;;
     a <- Dec.mul prec x_1 y_2 ;;
     b <- Dec.mul prec x_2 y_1 ;;
     c_z <- Dec.sub prec a b ;;
     Vector_of [c_x; c_y; c_z])
    [ (ValueError,
        fun e =>
          let msg := str e in
          if (msg =? "not enough values to unpack")%string
          then Raise (mkExn Exception ONLY_DEFINED_IN_THREE_DIMS_MSG)
          else Raise e) ].

Definition area_of_parallelgram (self v : Vector) : result float :=
  c <- cross_product self v ;; magnitude c.

Definition area_of_triangle (self v : Vector) : result number :=
  c <- cross_product self v ;;
  m <- magnitude c ;;
  number_truediv (PyFloat m) (PyDecimal (Finite false 20 (-1))).

Section Angle.

(** The C library's [acos] where the C standard does not fix its value:
    on finite arguments of magnitude at most one, other than one. *)
Variable libm_acos : float -> float.

Definition one : float := Flt.of_Z 1.

(** C's [acos]: NaN outside [[-1, 1]], and [acos(1) = +0]. *)
Definition c_acos (x : float) : float :=
  if Flt.is_nan x then Flt.nan
  else if Flt.ltb one (Flt.abs x) then Flt.nan
  else if Flt.eqb x one then Flt.zero
  else libm_acos x.

Definition acos : number -> result float := math_1 c_acos.

Definition angle_with (self v : Vector) (in_degrees : bool) : result number :=
  try_except
    (u1 <- normalized self ;;
     u2 <- normalized v ;;
     test_parallel <-
       comprehension (fun '(x, y) => Dec.eq x y)
         (zip (coordinates u1) (coordinates u2)) ;;
     let result := sum_bool test_parallel in
     if result =? Z.of_nat (List.length (coordinates u1)) then Ok (PyInt 0)
     else
       d <- dot u1 u2 ;;
       angle_in_radians <- acos d ;;
       if in_degrees then
         let degrees_per_radian :=
           Flt.div (Flt.of_decimal false 180 0) pi in
         Ok (PyFloat (Flt.mul angle_in_radians degrees_per_radian))
       else Ok (PyFloat angle_in_radians))
    [ (Exception,
        fun e =>
          if (str e =? CANNOT_NORMALIZE_ZERO_VECTOR_MSG)%string
          then Raise (mkExn Exception "Cannot compute an angle with the zero vector")
          else Raise e) ].

Definition is_parallel_to (self v : Vector) : result bool :=
  z <- is_zero self default_tolerance ;;
  if z then Ok true
  else
    z <- is_zero v default_tolerance ;;
    if z then Ok true
    else
      a <- angle_with self v false ;;
      if number_eq a (PyInt 0) then Ok true
      else
        a <- angle_with self v false ;;
        Ok (number_eq a (PyFloat pi)).

End Angle.

(** ** Objects

    Vectors are objects: two of them with the same attributes are still
    two instances. The store lists the [Vector] objects created so far,
    and a reference is a position in it. No method of the class assigns
    an attribute of an existing object; the only writes are those of
    [__init__], on the object being created. A method call therefore
    reads its operands in the store and, when it returns a vector, adds
    to the store the object its final [Vector(new_coordinates)] built. *)

Definition store := list Vector.
Definition ref := nat.

Definition new (h : store) (o : Vector) : ref * store :=
  (List.length h, (h ++ [o])%list).

(** The calls that return a vector. *)
Inductive call :=
| Plus (self v : ref)
| Minus (self v : ref)
| TimesScalar (self : ref) (scalar : number)
| Normalized (self : ref)
| ComponentParallelTo (self basis : ref)
| ComponentOrthogonalTo (self basis : ref)
| CrossProduct (self v : ref).

Definition on2 (h : store) (f : Vector -> Vector -> result Vector) (a b : ref)
  : option (result Vector) :=
  match nth_error h a, nth_error h b with
  | Some x, Some y => Some (f x y)
  | _, _ => None
  end.

Definition on1 (h : store) (f : Vector -> result Vector) (a : ref)
  : option (result Vector) :=
  option_map f (nth_error h a).

(** The value a call computes; [None] for a dangling reference. *)
Definition eval (h : store) (c : call) : option (result Vector) :=
  match c with
  | Plus self v => on2 h plus self v
  | Minus self v => on2 h minus self v
  | TimesScalar self scalar => on1 h (fun x => times_scalar x scalar) self
  | Normalized self => on1 h normalized self
  | ComponentParallelTo self basis => on2 h component_parallel_to self basis
  | ComponentOrthogonalTo self basis => on2 h component_orthogonal_to self basis
  | CrossProduct self v => on2 h cross_product self v
  end.

(** The call in the store: the reference returned and the store after. *)
Definition run (h : store) (c : call) : option (result (ref * store)) :=
  option_map
    (fun r => match r with Ok o => Ok (new h o) | Raise e => Raise e end)
    (eval h c).

(** * Vocabulary of the properties *)

(** [raises P r]: if [r] is an exception, it satisfies [P]. *)
Definition raises {A} (P : exn -> Prop) (r : result A) : Prop :=
  match r with
  | Ok _ => True
  | Raise e => P e
  end.

(** The signals of the decimal context other than [DivisionByZero]. *)
Definition arith (e : exn) : Prop :=
  e = Dec.signal Overflow \/ e = Dec.signal InvalidOperation.

(** Everything the module can raise apart from a division by zero and
    from the exceptions it raises itself with a message of its own. *)
Definition benign_exns : list exn :=
  [ Dec.signal Overflow;
    Dec.signal InvalidOperation;
    mkExn ValueError "math domain error";
    mkExn ValueError "cannot convert signaling NaN to float";
    mkExn OverflowError "int too large to convert to float";
    mkExn ValueError "The coordinates must be nonempty";
    mkExn TypeError "The coordinates must be an iterable" ].

Definition benign (e : exn) : Prop := In e benign_exns.

(** The message of the exception [angle_with] raises for a zero vector,
    and its handler. *)
Definition ANGLE_WITH_ZERO_VECTOR_MSG : string :=
  "Cannot compute an angle with the zero vector".

Definition angle_handler (e : exn) : result number :=
  if (str e =? CANNOT_NORMALIZE_ZERO_VECTOR_MSG)%string
  then Raise (mkExn Exception ANGLE_WITH_ZERO_VECTOR_MSG)
  else Raise e.

(** The construction invariant. *)
Definition well_formed (o : Vector) : Prop :=
  dimension o = List.length (coordinates o) /\ (1 <= dimension o)%nat.

(** [Vector([z1, z2, ...])] for integer literals. *)
Definition ints (zs : list Z) : value := PyList (map (fun z => Num (PyInt z)) zs).

(** The object [Vector(zs)] builds for a nonempty list of integers. *)
Definition vec (zs : list Z) : Vector :=
  mkVector (map Decimal_of_Z zs) (List.length zs).

(** [Vector([Decimal('1E+600000')])]: its square is beyond [Emax]. *)
Definition huge : Vector := mkVector [Finite false 1 600000] 1.

(** A finite decimal whose adjusted exponent is at most [Emax - 2]. *)
Definition ordinary (d : Decimal) : Prop :=
  match d with
  | Finite _ c e => Dec.ndigits (Z.of_N c) + e < Dec.Emax
  | _ => False
  end.

(** The list comprehension of [plus], [minus] and [dot]. *)
Definition elementwise (op : Decimal -> Decimal -> result Decimal)
  (xs ys : list Decimal) : result (list Decimal) :=
  comprehension (fun '(x, y) => op x y) (zip xs ys).

(** [zs] is [xs] and [ys] combined by [op], position by position, over
    the length of the shorter. *)
Definition pairwise (op : Decimal -> Decimal -> result Decimal)
  (xs ys zs : list Decimal) : Prop :=
  List.length zs = Nat.min (List.length xs) (List.length ys) /\
  forall i x y, nth_error xs i = Some x -> nth_error ys i = Some y ->
                exists z, nth_error zs i = Some z /\ op x y = Ok z.

(** What it is for [method], [plus] or [minus], to combine two vectors by
    [op] over their overlapping prefix: a result has the dimension of
    the shorter operand and the combined coordinates, and an exception is
    one that [op] raised on two corresponding coordinates. *)
Definition combines (op : Decimal -> Decimal -> result Decimal)
  (method : Vector -> Vector -> result Vector) (self v : Vector) : Prop :=
  (forall r, method self v = Ok r ->
     dimension r
     = Nat.min (List.length (coordinates self)) (List.length (coordinates v)) /\
     pairwise op (coordinates self) (coordinates v) (coordinates r)) /\
  (forall e, method self v = Raise e ->
     exists i x y, nth_error (coordinates self) i = Some x /\
                   nth_error (coordinates v) i = Some y /\
                   op x y = Raise e).

(** [d] is not a NaN. *)
Definition not_nan (d : Decimal) : Prop :=
  match d with
  | NaN _ => False
  | _ => True
  end.

(** No coordinate of the vector is a NaN. *)
Definition nan_free (self : Vector) : Prop := Forall not_nan (coordinates self).

(** [d] is a finite number. *)
Definition finite (d : Decimal) : Prop :=
  match d with
  | Finite _ _ _ => True
  | _ => False
  end.

(** Every coordinate of the vector is a zero, of either sign and any
    exponent. *)
Definition zero_vector (self : Vector) : Prop :=
  Forall (fun d => Dec.is_zero_coeff d = true) (coordinates self).

(** [d] is rounded to the context: at most [prec] significant digits,
    an exponent of [Etiny] at least and an adjusted exponent of [Emax]
    at most. An infinity or a NaN has no digits to round. *)
Definition rounded (d : Decimal) : Prop :=
  match d with
  | Finite _ c e =>
      Dec.ndigits (Z.of_N c) <= prec /\
      Dec.Etiny prec <= e /\
      Dec.ndigits (Z.of_N c) + e - 1 <= Dec.Emax
  | _ => True
  end.

(** [x] and [y] are equal as numbers: [x == y] is true. *)
Definition same_value (x y : Decimal) : Prop := Dec.eqb x y = true.

(** [n] does not carry a minus sign. *)
Definition unsigned (n : number) : Prop :=
  match n with
  | PyInt z => 0 <= z
  | PyFloat _ => False
  | PyDecimal (Finite s _ _) | PyDecimal (Infinity s) => s = false
  | PyDecimal (NaN _) => True
  end.

(** What the methods raise with a message of their own. *)
Definition zero_vector_exn : exn :=
  mkExn Exception CANNOT_NORMALIZE_ZERO_VECTOR_MSG.
Definition angle_exn : exn := mkExn Exception ANGLE_WITH_ZERO_VECTOR_MSG.
Definition component_exn : exn :=
  mkExn Exception NO_UNIQUE_ORTHOGONAL_COMPONENT_MSG.

(** * Properties *)

(** ** Which exceptions a computation can raise *)

Lemma raises_weaken {A} (P Q : exn -> Prop) (r : result A) :
  (forall e, P e -> Q e) -> raises P r -> raises Q r.
Proof. destruct r; simpl; auto. Qed.

Lemma raises_bind {A B} (P : exn -> Prop) (m : result A) (k : A -> result B) :
  raises P m -> (forall a, m = Ok a -> raises P (k a)) -> raises P (bind m k).
Proof. destruct m; simpl; auto. Qed.

Lemma raises_comprehension {A B} (P : exn -> Prop) (f : A -> result B) xs :
  (forall x, raises P (f x)) -> raises P (comprehension f xs).
Proof.
  intros Hf. induction xs as [|x xs IH]; simpl; [exact I|].
  apply raises_bind; [apply Hf|]. intros y _.
  apply raises_bind; [exact IH|]. intros ys _. exact I.
Qed.

Lemma raises_inv {A} (P : exn -> Prop) (r : result A) e :
  raises P r -> r = Raise e -> P e.
Proof. intros H ->. exact H. Qed.

Lemma arith_benign e : arith e -> benign e.
Proof. intros [-> | ->]; unfold benign, benign_exns; simpl; auto. Qed.

Lemma benign_not_ZeroDivisionError e :
  benign e -> issubclass (class_of e) ZeroDivisionError = false.
Proof.
  unfold benign, benign_exns. simpl.
  intros H; repeat (destruct H as [<- | H]; [reflexivity|]); contradiction.
Qed.

Lemma benign_not_normalize_msg e :
  benign e -> (str e =? CANNOT_NORMALIZE_ZERO_VECTOR_MSG)%string = false.
Proof.
  unfold benign, benign_exns. simpl.
  intros H; repeat (destruct H as [<- | H]; [reflexivity|]); contradiction.
Qed.

Lemma fix_finite_raises p s c e : raises arith (Dec.fix_finite p s c e).
Proof.
  unfold Dec.fix_finite.
  repeat match goal with
         | |- context [if ?b then _ else _] => destruct b
         | |- raises _ (let '(_, _) := ?x in _) => destruct x
         end; simpl; auto; left; reflexivity.
Qed.

Lemma fix_finite_Finite p s c e d :
  Dec.fix_finite p s c e = Ok d -> exists s' c' e', d = Finite s' c' e'.
Proof.
  unfold Dec.fix_finite.
  repeat match goal with
         | |- context [if ?b then _ else _] => destruct b
         | |- context [let '(_, _) := ?x in _] => destruct x
         end; intros H; inversion H; eauto.
Qed.

Ltac nan_cases a b :=
  destruct a as [? ? ?|?|[|]]; destruct b as [? ? ?|?|[|]]; simpl;
  try exact I; try (left; reflexivity); try (right; reflexivity).

Lemma add_raises p a b : raises arith (Dec.add p a b).
Proof.
  unfold Dec.add; nan_cases a b.
  - match goal with |- context [if ?c then _ else _] => destruct c end;
      apply fix_finite_raises.
  - match goal with |- context [if ?c then _ else _] => destruct c end;
      simpl; auto; right; reflexivity.
Qed.

Lemma sub_raises p a b : raises arith (Dec.sub p a b).
Proof.
  unfold Dec.sub. destruct (Dec.check_nans a b) as [r|] eqn:E.
  - destruct a as [? ? ?|?|[|]]; destruct b as [? ? ?|?|[|]]; simpl in E;
      inversion E; simpl; auto; right; reflexivity.
  - apply add_raises.
Qed.

Lemma mul_raises p a b : raises arith (Dec.mul p a b).
Proof.
  unfold Dec.mul; nan_cases a b.
  - apply fix_finite_raises.
  - match goal with |- context [if ?c then _ else _] => destruct c end;
      simpl; auto; right; reflexivity.
  - match goal with |- context [if ?c then _ else _] => destruct c end;
      simpl; auto; right; reflexivity.
Qed.

Lemma neg_raises p a : raises arith (Dec.neg p a).
Proof.
  destruct a as [? ? ?|?|[|]]; simpl; auto.
  - apply fix_finite_raises.
  - right; reflexivity.
Qed.

Lemma pow2_raises p a : raises arith (Dec.pow2 p a).
Proof.
  destruct a as [s c e|?|[|]]; simpl; auto; [|right; reflexivity].
  destruct (c =? 0)%N; simpl; auto.
  apply raises_bind; [apply fix_finite_raises|].
  intros r _. destruct r; simpl; auto. apply fix_finite_raises.
Qed.

(** A division raises [DivisionByZero] only for a zero divisor. *)
Lemma div_nonzero_raises p a b :
  Dec.is_zero_coeff b = false -> raises arith (Dec.div p a b).
Proof.
  intros Hb. unfold Dec.div.
  destruct a as [s1 c1 e1|?|[|]]; destruct b as [s2 c2 e2|?|[|]]; simpl;
    try exact I; try (left; reflexivity); try (right; reflexivity).
  assert (Hc : (c2 =? 0)%N = false).
  { destruct c2; [discriminate Hb | reflexivity]. }
  rewrite Hc. destruct (c1 =? 0)%N; [apply fix_finite_raises|].
  repeat match goal with
         | |- raises _ (let '(_, _) := ?x in _) => destruct x
         | |- context [if ?c then _ else _] => destruct c
         end; apply fix_finite_raises.
Qed.

(** ** The constructor *)

Lemma comprehension_Decimal_new ds :
  comprehension Decimal_new (map (fun d => Num (PyDecimal d)) ds) = Ok ds.
Proof. induction ds as [|d ds IH]; simpl; [reflexivity|]. now rewrite IH. Qed.

Lemma Vector_of_cons d ds :
  Vector_of (d :: ds) = Ok (mkVector (d :: ds) (List.length (d :: ds))).
Proof.
  unfold Vector_of, __init__. simpl.
  rewrite comprehension_Decimal_new. simpl.
  now rewrite length_map.
Qed.

Lemma Vector_of_nil :
  Vector_of [] = Raise (mkExn ValueError "The coordinates must be nonempty").
Proof. reflexivity. Qed.

Lemma Vector_of_Ok ds r :
  Vector_of ds = Ok r ->
  r = mkVector ds (List.length ds) /\ ds <> [].
Proof.
  destruct ds as [|d ds]; [discriminate|].
  rewrite Vector_of_cons. intros H; inversion H; split; [reflexivity|discriminate].
Qed.

Lemma Vector_of_raises ds : raises benign (Vector_of ds).
Proof.
  destruct ds as [|d ds]; [|rewrite Vector_of_cons; exact I].
  rewrite Vector_of_nil. unfold benign, benign_exns. simpl. tauto.
Qed.

(** ** The methods raise nothing but what their primitives raise *)

Lemma benign_bind {A B} (m : result A) (k : A -> result B) :
  raises benign m -> (forall a, raises benign (k a)) -> raises benign (bind m k).
Proof. intros Hm Hk. apply raises_bind; auto. Qed.

Lemma arith_is_benign {A} (r : result A) : raises arith r -> raises benign r.
Proof. apply raises_weaken, arith_benign. Qed.

Lemma sum_from_raises acc xs :
  (forall f, acc <> PyFloat f) -> raises arith (sum_from acc xs).
Proof.
  revert acc. induction xs as [|x xs IH]; intros acc Hacc; simpl; [exact I|].
  apply raises_bind.
  - destruct acc as [z|f|d]; simpl.
    + apply raises_bind; [apply add_raises|]. intros; exact I.
    + now destruct (Hacc f).
    + apply raises_bind; [apply add_raises|]. intros; exact I.
  - intros acc' Hacc'. apply IH. intros f ->.
    destruct acc as [z|f'|d]; simpl in Hacc'.
    + destruct (Dec.add prec (Decimal_of_Z z) x); discriminate.
    + now destruct (Hacc f').
    + destruct (Dec.add prec d x); discriminate.
Qed.

Lemma sum_raises xs : raises arith (sum xs).
Proof. apply sum_from_raises. discriminate. Qed.

Lemma float_of_number_raises n : raises benign (float_of_number n).
Proof.
  destruct n as [z|f|[s c e|s|[|]]]; simpl; try exact I.
  - destruct (Flt.is_infinite (Flt.of_Z z)); simpl; [|exact I].
    unfold benign, benign_exns; simpl; tauto.
  - unfold benign, benign_exns; simpl; tauto.
Qed.

Lemma math_1_raises func x : raises benign (math_1 func x).
Proof.
  unfold math_1. apply benign_bind; [apply float_of_number_raises|].
  intros f.
  repeat match goal with |- context [if ?c then _ else _] => destruct c end;
    simpl; try exact I; unfold benign, benign_exns; simpl; tauto.
Qed.

Lemma magnitude_raises self : raises benign (magnitude self).
Proof.
  unfold magnitude. apply benign_bind.
  - apply arith_is_benign, raises_comprehension, pow2_raises.
  - intros sq. apply benign_bind; [apply arith_is_benign, sum_raises|].
    intros t. apply math_1_raises.
Qed.

Lemma times_scalar_raises self scalar : raises benign (times_scalar self scalar).
Proof.
  unfold times_scalar. apply benign_bind.
  - apply arith_is_benign, raises_comprehension. intros x. apply mul_raises.
  - intros cs. apply Vector_of_raises.
Qed.

Lemma dot_raises self v : raises benign (dot self v).
Proof.
  unfold dot. apply benign_bind.
  - apply arith_is_benign, raises_comprehension. intros [x y]. apply mul_raises.
  - intros cs. apply arith_is_benign, sum_raises.
Qed.

(** A handler for [ZeroDivisionError] is not entered by a benign exception,
    nor is one that looks for the message of [normalized]. *)
Lemma try_except_ZeroDivisionError {A} (body : result A) h :
  raises benign body -> try_except body [(ZeroDivisionError, h)] = body.
Proof.
  destruct body as [a|e]; cbn [try_except dispatch raises]; [reflexivity|].
  intros H. now rewrite (benign_not_ZeroDivisionError e H).
Qed.

Lemma to_Decimal_zero_coeff m :
  Dec.is_zero_coeff (Flt.to_Decimal m) = Flt.is_zero m.
Proof.
  destruct m as [s|s| |s m e]; try reflexivity.
  unfold Flt.to_Decimal.
  destruct (0 <=? e) eqn:He.
  - apply Z.leb_le in He.
    assert (H : 0 < Zpos m * 2 ^ e)
      by (apply Z.mul_pos_pos; [lia|apply Z.pow_pos_nonneg; lia]).
    unfold Dec.is_zero_coeff, Flt.is_zero.
    destruct (Z.to_N (Zpos m * 2 ^ e)) eqn:E; [lia|reflexivity].
  - destruct (Flt.lowest_terms m (Z.to_nat (- e))) as [n k].
    assert (H : 0 < Zpos n * 5 ^ Z.of_nat k)
      by (apply Z.mul_pos_pos; [lia|apply Z.pow_pos_nonneg; lia]).
    unfold Dec.is_zero_coeff, Flt.is_zero.
    destruct (Z.to_N (Zpos n * 5 ^ Z.of_nat k)) eqn:E; [lia|reflexivity].
Qed.

(** What [normalized] does, by the magnitude. *)
Lemma normalized_spec self :
  normalized self =
  match magnitude self with
  | Raise e => Raise e
  | Ok m =>
      if Flt.is_zero m
      then Raise (mkExn Exception CANNOT_NORMALIZE_ZERO_VECTOR_MSG)
      else
        q <- Dec.div prec (Finite false 1 0) (Flt.to_Decimal m) ;;
        times_scalar self (PyDecimal q)
  end.
Proof.
  unfold normalized.
  pose proof (magnitude_raises self) as Hm.
  destruct (magnitude self) as [m|e]; cbn [bind].
  - destruct (Flt.is_zero m) eqn:Hz.
    + destruct m as [s|s| |s m e]; try discriminate. reflexivity.
    + apply try_except_ZeroDivisionError.
      apply benign_bind.
      * apply arith_is_benign, div_nonzero_raises.
        cbn [Decimal_of_number]. now rewrite to_Decimal_zero_coeff.
      * intros q. apply times_scalar_raises.
  - cbn [try_except dispatch raises] in *.
    now rewrite (benign_not_ZeroDivisionError e Hm).
Qed.

(** ** Vectors used in the examples *)

Lemma init_ints z zs : __init__ (ints (z :: zs)) = Ok (vec (z :: zs)).
Proof.
  unfold __init__, ints, vec. simpl.
  assert (H : forall l, comprehension Decimal_new (map (fun z => Num (PyInt z)) l)
                        = Ok (map Decimal_of_Z l)).
  { induction l as [|a l IH]; simpl; [reflexivity|]. now rewrite IH. }
  rewrite H. simpl. now rewrite length_map.
Qed.

Lemma not_benign_normalize_msg :
  ~ benign (mkExn Exception CANNOT_NORMALIZE_ZERO_VECTOR_MSG).
Proof.
  unfold benign, benign_exns. simpl.
  intros H; repeat (destruct H as [H | H]; [discriminate H|]); contradiction.
Qed.

(** ** Normalization *)

(** C4. [normalized] raises the exception with the message "Cannot
    normalize the zero vector" (the spec's [ZeroVectorError]; the code
    raises a plain [Exception]) exactly when the magnitude is a zero; for
    a magnitude that is not zero it is [times_scalar(Decimal('1') / m)],
    with [m] the magnitude converted to a [Decimal]. *)
Theorem normalized_zero_iff_magnitude_zero (self : Vector) :
  (normalized self = Raise (mkExn Exception CANNOT_NORMALIZE_ZERO_VECTOR_MSG) <->
   exists m, magnitude self = Ok m /\ Flt.is_zero m = true) /\
  (forall m, magnitude self = Ok m -> Flt.is_zero m = false ->
     normalized self =
       (q <- Dec.div prec (Decimal_of_number (PyInt 1))
               (Decimal_of_number (PyFloat m)) ;;
        times_scalar self (PyDecimal q))).
Proof.
  split; [split|].
  - intros H. rewrite normalized_spec in H.
    pose proof (magnitude_raises self) as Hm.
    destruct (magnitude self) as [m|e]; simpl in Hm.
    + destruct (Flt.is_zero m) eqn:Hz; [now exists m|].
      exfalso. apply not_benign_normalize_msg.
      eapply raises_inv; [|exact H].
      apply benign_bind.
      * apply arith_is_benign, div_nonzero_raises.
        now rewrite to_Decimal_zero_coeff.
      * intros q. apply times_scalar_raises.
    + inversion H; subst. now destruct not_benign_normalize_msg.
  - intros (m & Hm & Hz). rewrite normalized_spec, Hm, Hz. reflexivity.
  - intros m Hm Hz. rewrite normalized_spec, Hm, Hz. reflexivity.
Qed.

(** ** Decomposition *)

Lemma normalized_zero_magnitude basis m :
  magnitude basis = Ok m -> Flt.is_zero m = true ->
  normalized basis = Raise (mkExn Exception CANNOT_NORMALIZE_ZERO_VECTOR_MSG).
Proof. intros Hm Hz. rewrite normalized_spec, Hm, Hz. reflexivity. Qed.

(** C7. For a basis whose magnitude is a zero, [component_parallel_to] and
    [component_orthogonal_to] both raise the exception with the message
    "No unique orthogonal component exists" (the spec's
    [NoUniqueComponentError]), whatever [self] is. *)
Theorem component_of_zero_basis (self basis : Vector) (m : float) :
  magnitude basis = Ok m -> Flt.is_zero m = true ->
  component_parallel_to self basis
    = Raise (mkExn Exception NO_UNIQUE_ORTHOGONAL_COMPONENT_MSG) /\
  component_orthogonal_to self basis
    = Raise (mkExn Exception NO_UNIQUE_ORTHOGONAL_COMPONENT_MSG).
Proof.
  intros Hm Hz.
  assert (Hp : component_parallel_to self basis
               = Raise (mkExn Exception NO_UNIQUE_ORTHOGONAL_COMPONENT_MSG)).
  { unfold component_parallel_to.
    rewrite (normalized_zero_magnitude basis m Hm Hz). reflexivity. }
  split; [exact Hp|].
  unfold component_orthogonal_to. rewrite Hp. reflexivity.
Qed.

Lemma component_of_zero_basis_witness :
  component_parallel_to (vec [1; 1]) (vec [0; 0])
    = Raise (mkExn Exception NO_UNIQUE_ORTHOGONAL_COMPONENT_MSG) /\
  component_orthogonal_to (vec [1; 1]) (vec [0; 0])
    = Raise (mkExn Exception NO_UNIQUE_ORTHOGONAL_COMPONENT_MSG).
Proof.
  apply (component_of_zero_basis (vec [1; 1]) (vec [0; 0]) (S754_zero false));
    reflexivity.
Defined.

(** ** Cross product and areas *)

Lemma unpack3_raise t e :
  unpack3 t = Raise e ->
  class_of e = ValueError /\
  (str e =? "not enough values to unpack")%string = false /\
  str e <> ONLY_DEFINED_IN_THREE_DIMS_MSG.
Proof.
  destruct t as [|a [|b [|c [|d t]]]]; simpl; intros H; inversion H;
    repeat split; discriminate.
Qed.

Lemma unpack3_wrong_length t :
  List.length t <> 3%nat -> exists e, unpack3 t = Raise e.
Proof.
  intros H. destruct t as [|a [|b [|c [|d t]]]]; simpl in *; eauto.
  now destruct H.
Qed.

(** The handler of [cross_product] lets the error of an unpacking through. *)
Lemma cross_product_handler t e (body : result Vector) :
  unpack3 t = Raise e -> body = Raise e ->
  try_except body
    [ (ValueError,
        fun e =>
          let msg := str e in
          if (msg =? "not enough values to unpack")%string
          then Raise (mkExn Exception ONLY_DEFINED_IN_THREE_DIMS_MSG)
          else Raise e) ]
  = Raise e.
Proof.
  intros Hu ->. destruct (unpack3_raise t e Hu) as (Hc & Hmsg & _).
  cbn [try_except dispatch]. rewrite Hc. cbn [issubclass exn_class_eqb].
  now rewrite Hmsg.
Qed.

Lemma cross_product_raise self v e :
  cross_product self v = Raise e ->
  (exists t, unpack3 t = Raise e) \/ arith e.
Proof.
  unfold cross_product.
  destruct (unpack3 (coordinates self)) as [[[x_1 y_1] z_1]|e1] eqn:E1;
    cbn [bind].
  - destruct (unpack3 (coordinates v)) as [[[x_2 y_2] z_2]|e2] eqn:E2;
      cbn [bind].
    + match goal with
      | |- try_except ?body _ = _ -> _ =>
          assert (Hb : raises arith body);
          [|destruct body as [r|e0]; cbn [try_except dispatch]]
      end.
      * repeat (apply raises_bind;
                [first [apply mul_raises | apply sub_raises | apply neg_raises]
                |intros ? _]).
        rewrite Vector_of_cons. exact I.
      * discriminate.
      * destruct Hb as [-> | ->]; cbn; intros H; inversion H; subst;
          right; [left|right]; reflexivity.
    + intros H.
      assert (Heq : @Raise Vector e2 = Raise e).
      { etransitivity; [symmetry|exact H].
        exact (cross_product_handler _ e2 _ E2 eq_refl). }
      inversion Heq; subst. eauto.
  - intros H.
    assert (Heq : @Raise Vector e1 = Raise e).
    { etransitivity; [symmetry|exact H].
      exact (cross_product_handler _ e1 _ E1 eq_refl). }
    inversion Heq; subst. eauto.
Qed.

(** C1 (the code departs from its specification). When an operand does
    not have exactly three coordinates, [cross_product] raises the
    [ValueError] of the failed unpacking, unchanged: its text is never the one the
    handler compares it with. The exception with the message "Cross
    product can only be defined in three dimensions" is raised for no
    operands at all. *)
Theorem cross_product_wrong_dimension :
  (forall self v,
     (List.length (coordinates self) <> 3
      \/ List.length (coordinates v) <> 3)%nat ->
     exists e, cross_product self v = Raise e /\
               class_of e = ValueError /\
               str e <> ONLY_DEFINED_IN_THREE_DIMS_MSG) /\
  (forall self v e,
     cross_product self v = Raise e ->
     str e <> ONLY_DEFINED_IN_THREE_DIMS_MSG).
Proof.
  split.
  - intros self v H.
    assert (He : exists e t, unpack3 t = Raise e /\ cross_product self v = Raise e).
    { unfold cross_product.
      destruct (Nat.eq_dec (List.length (coordinates self)) 3) as [Hs|Hs].
      - destruct H as [H|H]; [contradiction|].
        destruct (coordinates self) as [|a [|b [|c [|d t]]]];
          try discriminate Hs.
        destruct (unpack3_wrong_length _ H) as (e & He).
        exists e, (coordinates v). split; [exact He|].
        apply (cross_product_handler _ e _ He). cbn [unpack3 bind].
        now rewrite He.
      - destruct (unpack3_wrong_length _ Hs) as (e & He).
        exists e, (coordinates self). split; [exact He|].
        apply (cross_product_handler _ e _ He). now rewrite He. }
    destruct He as (e & t & Hu & He). exists e.
    destruct (unpack3_raise t e Hu) as (Hc & _ & Hmsg). auto.
  - intros self v e H.
    destruct (cross_product_raise self v e H) as [(t & Hu) | [-> | ->]];
      [|discriminate|discriminate].
    now destruct (unpack3_raise t e Hu) as (_ & _ & Hmsg).
Qed.

Lemma cross_product_wrong_dimension_witness :
  exists e, cross_product (vec [1; 2]) (vec [3; 4]) = Raise e /\
            class_of e = ValueError /\
            str e <> ONLY_DEFINED_IN_THREE_DIMS_MSG.
Proof.
  apply (proj1 cross_product_wrong_dimension (vec [1; 2]) (vec [3; 4])).
  left. simpl. lia.
Defined.

(** C2 (the code departs from its specification). Whenever the area of
    the parallelogram is computed, [area_of_triangle] raises a [TypeError]:
    it divides the magnitude, a [float], by [Decimal('2.0')]. *)
Theorem area_of_triangle_raises (self v : Vector) (area : float) :
  area_of_parallelgram self v = Ok area ->
  area_of_triangle self v =
    Raise (mkExn TypeError
             "unsupported operand type(s) for /: 'float' and 'decimal.Decimal'").
Proof.
  unfold area_of_parallelgram, area_of_triangle.
  destruct (cross_product self v) as [c|e]; cbn [bind]; [|discriminate].
  destruct (magnitude c) as [m|e]; cbn [bind]; [|discriminate].
  reflexivity.
Qed.

Lemma area_of_triangle_raises_witness :
  area_of_triangle (vec [5; 3; -2]) (vec [-1; 0; 3]) =
    Raise (mkExn TypeError
             "unsupported operand type(s) for /: 'float' and 'decimal.Decimal'").
Proof.
  apply (area_of_triangle_raises (vec [5; 3; -2]) (vec [-1; 0; 3])
           (S754_finite false 4529911046719843 (-48))).
  vm_compute. reflexivity.
Defined.

(** ** Construction *)

Lemma init_falsy x :
  truth x = false ->
  __init__ x = Raise (mkExn ValueError "The coordinates must be nonempty").
Proof. intros H. unfold __init__. rewrite H. reflexivity. Qed.

Lemma init_scalar s :
  truth (Scalar s) = true ->
  __init__ (Scalar s) = Raise (mkExn TypeError "The coordinates must be an iterable").
Proof.
  intros H. unfold __init__. rewrite H.
  destruct s as [|n]; [discriminate H|]. reflexivity.
Qed.

Lemma comprehension_convertible items :
  Forall (fun x => exists d, Decimal_new x = Ok d) items ->
  exists ds, comprehension Decimal_new items = Ok ds /\
             Forall2 (fun x d => Decimal_new x = Ok d) items ds.
Proof.
  induction 1 as [|x items (d & Hd) _ (ds & Hds & Hall)].
  - exists []. split; [reflexivity|constructor].
  - exists (d :: ds). simpl. rewrite Hd, Hds. split; [reflexivity|].
    now constructor.
Qed.

(** C9 (amended). The constructor raises the [ValueError] with the
    "nonempty" message for every falsy argument (the empty list or tuple,
    [None], and also a zero scalar), and the [TypeError] with the
    "iterable" message for every truthy argument that is not a sequence;
    a nonempty sequence of values convertible to [Decimal] is accepted,
    and gives the vector of the converted values with the length of the
    sequence as dimension. (Both classes are the spec's
    [InvalidArgument].) *)
Theorem init_errors :
  (forall x, truth x = false ->
     __init__ x = Raise (mkExn ValueError "The coordinates must be nonempty")) /\
  (forall s, truth (Scalar s) = true ->
     __init__ (Scalar s)
       = Raise (mkExn TypeError "The coordinates must be an iterable")) /\
  (forall items, items <> [] ->
     Forall (fun x => exists d, Decimal_new x = Ok d) items ->
     exists ds,
       Forall2 (fun x d => Decimal_new x = Ok d) items ds /\
       __init__ (PyList items) = Ok (mkVector ds (List.length items)) /\
       __init__ (PyTuple items) = Ok (mkVector ds (List.length items))).
Proof.
  split; [exact init_falsy|]. split; [exact init_scalar|].
  intros items Hne Hall.
  destruct (comprehension_convertible items Hall) as (ds & Hds & H2).
  exists ds. split; [exact H2|].
  unfold __init__.
  destruct items as [|x items]; [contradiction|].
  cbn [truth negb iterate len bind]. rewrite Hds. split; reflexivity.
Qed.

Lemma init_errors_witness :
  __init__ (PyList []) = Raise (mkExn ValueError "The coordinates must be nonempty") /\
  __init__ (Scalar (Num (PyInt 5)))
    = Raise (mkExn TypeError "The coordinates must be an iterable") /\
  exists ds,
    Forall2 (fun x d => Decimal_new x = Ok d) [Num (PyInt 1); Num (PyInt 2)] ds /\
    __init__ (PyList [Num (PyInt 1); Num (PyInt 2)]) = Ok (mkVector ds 2) /\
    __init__ (PyTuple [Num (PyInt 1); Num (PyInt 2)]) = Ok (mkVector ds 2).
Proof.
  destruct init_errors as (Hfalsy & Hscalar & Hseq).
  split; [apply Hfalsy; reflexivity|].
  split; [apply Hscalar; reflexivity|].
  apply Hseq; [discriminate|].
  repeat constructor; eexists; reflexivity.
Defined.

(** C9 as stated fails: the scalar [0] is not a sequence, yet it gets the
    "nonempty" message, since the emptiness test comes first and a zero
    is falsy. *)
Lemma init_scalar_zero_is_nonempty_error :
  iterate (Scalar (Num (PyInt 0))) = Raise (not_iterable "int") /\
  __init__ (Scalar (Num (PyInt 0)))
    = Raise (mkExn ValueError "The coordinates must be nonempty").
Proof. split; reflexivity. Qed.

(** ** The construction invariant *)

Lemma bind_Ok {A B} (m : result A) (k : A -> result B) b :
  bind m k = Ok b -> exists a, m = Ok a /\ k a = Ok b.
Proof. destruct m as [a|e]; simpl; [eauto|discriminate]. Qed.

Lemma try_except_Ok {A} (body : result A) c (h : exn -> result A) a :
  (forall e, exists e', h e = Raise e') ->
  try_except body [(c, h)] = Ok a -> body = Ok a.
Proof.
  intros Hh. destruct body as [a'|e]; simpl; [auto|].
  destruct (issubclass (class_of e) c); [|discriminate].
  destruct (Hh e) as (e' & ->). discriminate.
Qed.

Lemma Vector_of_well_formed ds o : Vector_of ds = Ok o -> well_formed o.
Proof.
  intros H. destruct (Vector_of_Ok ds o H) as (-> & Hne).
  split; [reflexivity|]. destruct ds; [contradiction|simpl; lia].
Qed.

Lemma plus_well_formed self v o : plus self v = Ok o -> well_formed o.
Proof.
  intros H. apply bind_Ok in H as (cs & _ & H).
  now apply Vector_of_well_formed in H.
Qed.

Lemma minus_well_formed self v o : minus self v = Ok o -> well_formed o.
Proof.
  intros H. apply bind_Ok in H as (cs & _ & H).
  now apply Vector_of_well_formed in H.
Qed.

Lemma times_scalar_well_formed self s o :
  times_scalar self s = Ok o -> well_formed o.
Proof.
  intros H. apply bind_Ok in H as (cs & _ & H).
  now apply Vector_of_well_formed in H.
Qed.

Lemma normalized_well_formed self o : normalized self = Ok o -> well_formed o.
Proof.
  intros H. apply try_except_Ok in H; [|eauto].
  apply bind_Ok in H as (m & _ & H).
  apply bind_Ok in H as (q & _ & H).
  now apply times_scalar_well_formed in H.
Qed.

Lemma handler_raises (msg : string) (replacement : exn) e :
  exists e', (if (str e =? msg)%string then @Raise Vector replacement else Raise e)
             = Raise e'.
Proof. destruct (str e =? msg)%string; eauto. Qed.

Lemma component_parallel_to_well_formed self basis o :
  component_parallel_to self basis = Ok o -> well_formed o.
Proof.
  intros H. apply try_except_Ok in H; [|intros e; apply handler_raises].
  apply bind_Ok in H as (u & _ & H).
  apply bind_Ok in H as (w & _ & H).
  now apply times_scalar_well_formed in H.
Qed.

Lemma component_orthogonal_to_well_formed self basis o :
  component_orthogonal_to self basis = Ok o -> well_formed o.
Proof.
  intros H. apply try_except_Ok in H; [|intros e; apply handler_raises].
  apply bind_Ok in H as (u & _ & H).
  now apply minus_well_formed in H.
Qed.

Lemma cross_product_well_formed self v o :
  cross_product self v = Ok o -> well_formed o.
Proof.
  intros H. apply try_except_Ok in H.
  - repeat (apply bind_Ok in H as (? & _ & H);
            try match type of H with
              | (let '(_, _) := ?p in _) = _ => destruct p as [[? ?] ?]
              | match ?p with _ => _ end = _ => destruct p as [[? ?] ?]
              end).
    now apply Vector_of_well_formed in H.
  - intros e. cbv zeta. apply handler_raises.
Qed.

Lemma eval_well_formed h c o : eval h c = Some (Ok o) -> well_formed o.
Proof.
  destruct c; simpl; unfold on1, on2;
    repeat match goal with
           | |- context [nth_error h ?r] => destruct (nth_error h r)
           end; simpl; try discriminate; intros H; inversion H as [H'];
    eauto using plus_well_formed, minus_well_formed, times_scalar_well_formed,
      normalized_well_formed, component_parallel_to_well_formed,
      component_orthogonal_to_well_formed, cross_product_well_formed.
Qed.

(** C10. A call of [plus], [minus], [times_scalar], [normalized],
    [component_parallel_to], [component_orthogonal_to] or [cross_product]
    that returns, returns a reference to a new object, which satisfies the
    construction invariant (its dimension is the number of its
    coordinates, and is at least 1), and leaves every object of the store,
    the operands among them, as it was. *)
Theorem returned_vector_is_new_and_well_formed
  (h h' : store) (c : call) (r : ref) :
  run h c = Some (Ok (r, h')) ->
  nth_error h r = None /\
  (exists o, nth_error h' r = Some o /\ well_formed o) /\
  (forall p o, nth_error h p = Some o -> nth_error h' p = Some o).
Proof.
  unfold run. destruct (eval h c) as [[o|e]|] eqn:E; try discriminate.
  unfold new. simpl. intros H. inversion H; subst. clear H.
  split; [apply nth_error_None; lia|]. split.
  - exists o. split; [|now apply eval_well_formed in E].
    rewrite nth_error_app2, Nat.sub_diag; [reflexivity|lia].
  - intros p o' Hp. rewrite nth_error_app1; [exact Hp|].
    apply nth_error_Some. congruence.
Qed.

Lemma returned_vector_is_new_and_well_formed_witness :
  nth_error [vec [1; 2]; vec [3; 4]] 2%nat = None /\
  (exists o, nth_error [vec [1; 2]; vec [3; 4]; vec [4; 6]] 2%nat = Some o /\
             well_formed o) /\
  (forall p o, nth_error [vec [1; 2]; vec [3; 4]] p = Some o ->
               nth_error [vec [1; 2]; vec [3; 4]; vec [4; 6]] p = Some o).
Proof.
  apply (returned_vector_is_new_and_well_formed
           [vec [1; 2]; vec [3; 4]] [vec [1; 2]; vec [3; 4]; vec [4; 6]]
           (Plus 0%nat 1%nat) 2%nat).
  reflexivity.
Defined.

(** ** Angles *)

Lemma mul_not_snan p a b d : Dec.mul p a b = Ok d -> Dec.is_snan d = false.
Proof.
  unfold Dec.mul.
  destruct a as [s1 c1 e1|s1|[|]]; destruct b as [s2 c2 e2|s2|[|]]; simpl;
    repeat match goal with
           | |- context [if ?c then _ else _] => destruct c
           end;
    try discriminate; intros H;
    try (apply fix_finite_Finite in H as (s & c & e & ->));
    try (inversion H); reflexivity.
Qed.

Lemma comprehension_Forall {A B} (f : A -> result B) (P : B -> Prop) xs ys :
  (forall x y, f x = Ok y -> P y) ->
  comprehension f xs = Ok ys -> Forall P ys.
Proof.
  intros Hf. revert ys. induction xs as [|x xs IH]; simpl; intros ys H.
  - inversion H. constructor.
  - apply bind_Ok in H as (y & Hy & H).
    apply bind_Ok in H as (ys' & Hys & H). inversion H; subst.
    constructor; eauto.
Qed.

Lemma times_scalar_not_snan self s u :
  times_scalar self s = Ok u ->
  Forall (fun d => Dec.is_snan d = false) (coordinates u).
Proof.
  intros H. apply bind_Ok in H as (cs & Hcs & H).
  apply Vector_of_Ok in H as (-> & _). simpl.
  eapply comprehension_Forall; [|exact Hcs].
  intros x y. apply mul_not_snan.
Qed.

Lemma normalized_not_snan self u :
  normalized self = Ok u ->
  Forall (fun d => Dec.is_snan d = false) (coordinates u).
Proof.
  intros H. apply try_except_Ok in H; [|eauto].
  apply bind_Ok in H as (m & _ & H).
  apply bind_Ok in H as (q & _ & H).
  now apply times_scalar_not_snan in H.
Qed.

Lemma normalized_Ok_magnitude self u :
  normalized self = Ok u -> exists m, magnitude self = Ok m.
Proof.
  intros H. apply try_except_Ok in H; [|eauto].
  apply bind_Ok in H as (m & Hm & _). eauto.
Qed.

(** [x == y] over the pairs of two tuples without signaling NaN. *)
Lemma comprehension_eq xs ys :
  Forall (fun d => Dec.is_snan d = false) xs ->
  Forall (fun d => Dec.is_snan d = false) ys ->
  comprehension (fun '(x, y) => Dec.eq x y) (zip xs ys)
  = Ok (map (fun '(x, y) => Dec.eqb x y) (zip xs ys)).
Proof.
  intros Hx. revert ys. induction Hx as [|x xs Hx _ IH]; intros ys Hy.
  - reflexivity.
  - destruct Hy as [|y ys Hy Hys]; [reflexivity|].
    unfold zip in *. simpl. unfold Dec.eq at 1. rewrite Hx, Hy. simpl.
    now rewrite IH.
Qed.

Lemma sum_bool_from bs acc :
  fold_left (fun a (b : bool) => a + (if b then 1 else 0)) bs acc
  = acc + sum_bool bs.
Proof.
  unfold sum_bool. revert acc. induction bs as [|b bs IH]; intros acc; simpl.
  - lia.
  - rewrite IH, (IH (if b then 1 else 0)). lia.
Qed.

Lemma sum_bool_cons b bs : sum_bool (b :: bs) = (if b then 1 else 0) + sum_bool bs.
Proof. unfold sum_bool at 1. simpl. now rewrite sum_bool_from. Qed.

Lemma sum_bool_bound bs : 0 <= sum_bool bs <= Z.of_nat (List.length bs).
Proof.
  induction bs as [|b bs IH]; [unfold sum_bool; simpl; lia|].
  rewrite sum_bool_cons. cbn [List.length]. rewrite Nat2Z.inj_succ.
  destruct b; lia.
Qed.

(** All the booleans are true exactly when their sum is their number. *)
Lemma sum_bool_all bs :
  (sum_bool bs =? Z.of_nat (List.length bs)) = forallb (fun b => b) bs.
Proof.
  induction bs as [|b bs IH]; [reflexivity|].
  rewrite sum_bool_cons. cbn [List.length forallb]. rewrite Nat2Z.inj_succ.
  pose proof (sum_bool_bound bs) as Hb.
  destruct b; cbn [andb].
  - rewrite <- IH. destruct (sum_bool bs =? Z.of_nat (List.length bs)) eqn:E.
    + apply Z.eqb_eq in E. apply Z.eqb_eq. lia.
    + apply Z.eqb_neq in E. apply Z.eqb_neq. lia.
  - apply Z.eqb_neq. lia.
Qed.

Lemma forallb_id_map {A} (f : A -> bool) l :
  forallb (fun b => b) (map f l) = forallb f l.
Proof. induction l as [|x l IH]; simpl; [reflexivity|]. now rewrite IH. Qed.

Section AngleProperties.

Variable libm_acos : float -> float.

Lemma try_except_angle (body : result number) :
  raises benign body -> try_except body [(Exception, angle_handler)] = body.
Proof.
  destruct body as [a|e]; cbn [try_except dispatch raises]; [reflexivity|].
  intros H. cbn [issubclass]. unfold angle_handler.
  now rewrite (benign_not_normalize_msg e H).
Qed.

Lemma acos_raises x : raises benign (acos libm_acos x).
Proof. apply math_1_raises. Qed.

(** The angle of two vectors that normalize to [u1] and [u2]. *)
Lemma angle_with_normalized self v in_degrees u1 u2 :
  normalized self = Ok u1 -> normalized v = Ok u2 ->
  angle_with libm_acos self v in_degrees =
  if sum_bool (map (fun '(x, y) => Dec.eqb x y)
                 (zip (coordinates u1) (coordinates u2)))
     =? Z.of_nat (List.length (coordinates u1))
  then Ok (PyInt 0)
  else
    d <- dot u1 u2 ;;
    a <- acos libm_acos d ;;
    Ok (PyFloat (if in_degrees
                 then Flt.mul a (Flt.div (Flt.of_decimal false 180 0) pi)
                 else a)).
Proof.
  intros H1 H2. unfold angle_with. change (fun e : exn => _) with angle_handler.
  rewrite H1, H2. cbn [bind].
  rewrite comprehension_eq by eauto using normalized_not_snan. cbn [bind].
  rewrite try_except_angle.
  - destruct (_ =? _); [reflexivity|].
    destruct (dot u1 u2) as [d|e]; cbn [bind]; [|reflexivity].
    destruct (acos libm_acos d) as [a|e]; cbn [bind]; [|reflexivity].
    now destruct in_degrees.
  - destruct (_ =? _); [exact I|].
    apply benign_bind; [apply dot_raises|]. intros d.
    apply benign_bind; [apply acos_raises|]. intros a.
    now destruct in_degrees.
Qed.

Lemma angle_with_Ok self v in_degrees a :
  angle_with libm_acos self v in_degrees = Ok a ->
  exists u1 u2, normalized self = Ok u1 /\ normalized v = Ok u2.
Proof.
  intros H. apply try_except_Ok in H.
  - apply bind_Ok in H as (u1 & H1 & H).
    apply bind_Ok in H as (u2 & H2 & _). eauto.
  - intros e. destruct (str e =? CANNOT_NORMALIZE_ZERO_VECTOR_MSG)%string; eauto.
Qed.

End AngleProperties.

(** C6 (amended). [angle_with] raises the exception with the message
    "Cannot compute an angle with the zero vector" when the magnitude of
    the first operand is a zero, and when the first operand normalizes
    and the magnitude of the second is a zero. *)
Theorem angle_with_zero_vector
  (libm_acos : float -> float) (self v : Vector) (in_degrees : bool) :
  (exists m, magnitude self = Ok m /\ Flt.is_zero m = true) \/
  ((exists u1, normalized self = Ok u1) /\
   exists m, magnitude v = Ok m /\ Flt.is_zero m = true) ->
  angle_with libm_acos self v in_degrees
  = Raise (mkExn Exception ANGLE_WITH_ZERO_VECTOR_MSG).
Proof.
  intros [(m & Hm & Hz) | ((u1 & Hu1) & m & Hm & Hz)]; unfold angle_with.
  - rewrite (normalized_zero_magnitude self m Hm Hz). reflexivity.
  - rewrite Hu1, (normalized_zero_magnitude v m Hm Hz). reflexivity.
Qed.

Lemma angle_with_zero_vector_witness :
  angle_with (fun x => x) (vec [1; 0]) (vec [0; 0]) false
  = Raise (mkExn Exception ANGLE_WITH_ZERO_VECTOR_MSG).
Proof.
  apply (angle_with_zero_vector (fun x => x) (vec [1; 0]) (vec [0; 0]) false).
  right. split.
  - exists (vec [1; 0]). vm_compute. reflexivity.
  - exists (S754_zero false). split; reflexivity.
Defined.

(** C6 as stated fails: the second operand has magnitude zero, but the
    first one cannot be normalized, its square overflowing the decimal
    context, and it is that [decimal.Overflow] that [angle_with] raises. *)
Lemma angle_with_zero_vector_after_overflow :
  __init__ (PyList [Num (PyDecimal (Finite false 1 600000))]) = Ok huge /\
  __init__ (ints [0]) = Ok (vec [0]) /\
  magnitude (vec [0]) = Ok (S754_zero false) /\
  forall (libm_acos : float -> float) (in_degrees : bool),
    angle_with libm_acos huge (vec [0]) in_degrees
    = Raise (Dec.signal Overflow).
Proof.
  repeat split; try (vm_compute; reflexivity).
Qed.

(** C5 (amended). For two vectors that normalize to [u1] and [u2], the
    first with no more coordinates than the second (so, for two vectors
    of the same dimension): if every coordinate of [u1] equals the
    corresponding one of [u2], [angle_with] returns the integer [0]
    without calling [acos]; otherwise it returns [acos(u1.dot(u2))],
    times [180./pi] when [in_degrees] is set. In particular
    [Vector([1,0]).angle_with(Vector([1,0]))] is [0]. *)
Theorem angle_with_fast_path (libm_acos : float -> float) :
  (forall self v in_degrees u1 u2,
     normalized self = Ok u1 -> normalized v = Ok u2 ->
     (List.length (coordinates u1) <= List.length (coordinates u2))%nat ->
     angle_with libm_acos self v in_degrees =
     if forallb (fun '(x, y) => Dec.eqb x y)
          (zip (coordinates u1) (coordinates u2))
     then Ok (PyInt 0)
     else
       d <- dot u1 u2 ;;
       a <- acos libm_acos d ;;
       Ok (PyFloat (if in_degrees
                    then Flt.mul a (Flt.div (Flt.of_decimal false 180 0) pi)
                    else a))) /\
  (a <- __init__ (ints [1; 0]) ;;
   b <- __init__ (ints [1; 0]) ;;
   angle_with libm_acos a b false) = Ok (PyInt 0).
Proof.
  split.
  - intros self v in_degrees u1 u2 H1 H2 Hlen.
    rewrite (angle_with_normalized libm_acos self v in_degrees u1 u2 H1 H2).
    replace (Z.of_nat (List.length (coordinates u1)))
      with (Z.of_nat (List.length (map (fun '(x, y) => Dec.eqb x y)
                                     (zip (coordinates u1) (coordinates u2)))))
      by (f_equal; unfold zip; rewrite length_map, length_combine; lia).
    now rewrite sum_bool_all, forallb_id_map.
  - vm_compute. reflexivity.
Qed.

Lemma angle_with_fast_path_witness :
  angle_with (fun x => x) (vec [3; 4]) (vec [3; 4]) true = Ok (PyInt 0).
Proof.
  apply (proj1 (angle_with_fast_path (fun x => x)) (vec [3; 4]) (vec [3; 4]) true
           (mkVector [Finite false 6 (-1); Finite false 8 (-1)] 2)
           (mkVector [Finite false 6 (-1); Finite false 8 (-1)] 2));
    vm_compute; solve [reflexivity | discriminate].
Defined.

(** C5 as stated fails for vectors of different dimensions.
    [Vector([3,0])] and [Vector([3])] normalize to [(0.999, 0.000)] and
    [(0.999)]: every pair of corresponding coordinates is equal, yet the
    count of equal pairs, 1, is not the dimension 2 of the first, and
    [angle_with] goes through [acos(0.998)]. With the operands exchanged
    it returns [0] without calling [acos], though the two unit vectors are
    not equal. *)
Lemma angle_with_different_dimensions :
  let u := mkVector [Finite false 999 (-3); Finite false 0 (-3)] 2 in
  let w := mkVector [Finite false 999 (-3)] 1 in
  __init__ (ints [3; 0]) = Ok (vec [3; 0]) /\
  __init__ (ints [3]) = Ok (vec [3]) /\
  normalized (vec [3; 0]) = Ok u /\
  normalized (vec [3]) = Ok w /\
  forallb (fun '(x, y) => Dec.eqb x y) (zip (coordinates u) (coordinates w)) = true /\
  __eq__ w u = Ok false /\
  (forall libm_acos : float -> float,
     angle_with libm_acos (vec [3; 0]) (vec [3]) false
     = (a <- acos libm_acos (PyDecimal (Finite false 998 (-3))) ;; Ok (PyFloat a))) /\
  (forall libm_acos : float -> float,
     angle_with libm_acos (vec [3]) (vec [3; 0]) false = Ok (PyInt 0)).
Proof.
  cbv zeta. repeat split; try (vm_compute; reflexivity); intros libm_acos.
  rewrite (angle_with_normalized libm_acos (vec [3; 0]) (vec [3]) false
               (mkVector [Finite false 999 (-3); Finite false 0 (-3)] 2)
               (mkVector [Finite false 999 (-3)] 1))
    by (vm_compute; reflexivity).
  match goal with
  | |- (if ?c then _ else _) = _ =>
      replace c with false by (vm_compute; reflexivity)
  end.
  match goal with
  | |- context [dot ?a ?b] =>
      replace (dot a b) with (Ok (PyDecimal (Finite false 998 (-3))))
        by (vm_compute; reflexivity)
  end.
  reflexivity.
Qed.

(** ** Parallelism *)

Section Parallel.

Variable libm_acos : float -> float.

(** C3 (amended). [is_parallel_to] returns [True] exactly when [self] is
    a zero vector (its magnitude is below [1e-10]), or [self.is_zero()]
    returns and either [v] is a zero vector, or [angle_with(v)] is [0],
    or it is [pi]. In particular
    [Vector([1,1]).is_parallel_to(Vector([2,2]))] is [True]. *)
Theorem is_parallel_to_iff (self v : Vector) :
  (is_parallel_to libm_acos self v = Ok true <->
   is_zero self default_tolerance = Ok true \/
   ((exists b, is_zero self default_tolerance = Ok b) /\
    (is_zero v default_tolerance = Ok true \/
     exists a, angle_with libm_acos self v false = Ok a /\
               (number_eq a (PyInt 0) = true \/
                number_eq a (PyFloat pi) = true)))) /\
  (a <- __init__ (ints [1; 1]) ;;
   b <- __init__ (ints [2; 2]) ;;
   is_parallel_to libm_acos a b) = Ok true.
Proof.
  split; [|vm_compute; reflexivity].
  unfold is_parallel_to. split.
  - destruct (is_zero self default_tolerance) as [[|]|e]; cbn [bind];
      [now left| |discriminate].
    intros H. right. split; [eauto|].
    destruct (is_zero v default_tolerance) as [[|]|e]; cbn [bind] in H;
      [now left| |discriminate].
    right.
    destruct (angle_with libm_acos self v false) as [a|e]; cbn [bind] in H;
      [|discriminate].
    exists a. split; [reflexivity|].
    destruct (number_eq a (PyInt 0)); [now left|].
    right. now inversion H.
  - intros [H | ((b & Hb) & H)]; [now rewrite H|].
    rewrite Hb. cbn [bind]. destruct b; [reflexivity|].
    destruct H as [H | (a & Ha & H)]; [now rewrite H|].
    destruct (angle_with_Ok libm_acos self v false a Ha) as (u1 & u2 & _ & H2).
    destruct (normalized_Ok_magnitude v u2 H2) as (m & Hm).
    unfold is_zero at 1. rewrite Hm. cbn [bind].
    destruct (Flt.ltb m default_tolerance); [reflexivity|].
    rewrite Ha. cbn [bind].
    destruct (number_eq a (PyInt 0)); [reflexivity|].
    destruct H as [H | H]; [discriminate|now rewrite H].
Qed.

End Parallel.

(** C3 as stated fails: [v] is the zero vector, but the magnitude of
    [self] cannot be computed, its square overflowing the decimal context,
    and [is_parallel_to] raises that [decimal.Overflow] instead of
    returning [True]. *)
Lemma is_parallel_to_zero_after_overflow :
  __init__ (PyList [Num (PyDecimal (Finite false 1 600000))]) = Ok huge /\
  __init__ (ints [0]) = Ok (vec [0]) /\
  is_zero (vec [0]) default_tolerance = Ok true /\
  forall libm_acos : float -> float,
    is_parallel_to libm_acos huge (vec [0]) = Raise (Dec.signal Overflow).
Proof.
  repeat split; try (vm_compute; reflexivity).
Qed.

(** ** Addition and subtraction *)

Lemma digits_aux_pos fuel n : 1 <= Dec.digits_aux fuel n.
Proof.
  revert n. induction fuel as [|fuel IH]; intros n; cbn [Dec.digits_aux]; [lia|].
  destruct (n <? 10); [lia|]. specialize (IH (n / 10)). lia.
Qed.

(** With fuel for every binary digit, [digits_aux] counts the decimal
    digits. *)
Lemma digits_aux_spec fuel n :
  0 < n -> Z.log2 n <= Z.of_nat fuel ->
  10 ^ (Dec.digits_aux fuel n - 1) <= n < 10 ^ Dec.digits_aux fuel n.
Proof.
  revert n. induction fuel as [|fuel IH]; intros n Hn Hlog.
  - assert (n = 1).
    { destruct (Z.eq_dec n 1) as [|Hne]; [assumption|].
      assert (1 <= Z.log2 n) by (apply Z.log2_le_pow2; simpl; lia). lia. }
    subst. simpl. lia.
  - cbn [Dec.digits_aux]. destruct (n <? 10) eqn:E.
    + apply Z.ltb_lt in E. simpl. lia.
    + apply Z.ltb_ge in E.
      assert (Hq : 0 < n / 10) by (apply Z.div_str_pos; lia).
      assert (Hlq : Z.log2 (n / 10) <= Z.of_nat fuel).
      { destruct (Z.log2_spec n Hn) as [_ Hup].
        rewrite Z.pow_succ_r in Hup by apply Z.log2_nonneg.
        assert (n / 10 < 2 ^ Z.log2 n)
          by (apply Z.div_lt_upper_bound; lia).
        assert (Z.log2 (n / 10) < Z.log2 n) by (apply Z.log2_lt_pow2; lia).
        lia. }
      destruct (IH (n / 10) Hq Hlq) as [Hlo Hhi].
      pose proof (Z.div_mod n 10 ltac:(lia)) as Hdm.
      pose proof (Z.mod_pos_bound n 10 ltac:(lia)) as Hmod.
      pose proof (digits_aux_pos fuel (n / 10)) as Hd.
      replace (1 + Dec.digits_aux fuel (n / 10) - 1)
        with (Z.succ (Dec.digits_aux fuel (n / 10) - 1)) by lia.
      replace (1 + Dec.digits_aux fuel (n / 10))
        with (Z.succ (Dec.digits_aux fuel (n / 10))) by lia.
      rewrite !Z.pow_succ_r by lia. lia.
Qed.

Lemma ndigits_spec n :
  0 < n -> 10 ^ (Dec.ndigits n - 1) <= n < 10 ^ Dec.ndigits n.
Proof.
  intros Hn. apply digits_aux_spec; [assumption|].
  rewrite Z2Nat.id; [lia|apply Z.log2_nonneg].
Qed.

(** A number below [10^k] has at most [k] digits. *)
Lemma ndigits_le n k : 0 < n -> n < 10 ^ k -> Dec.ndigits n <= k.
Proof.
  intros Hn Hk. destruct (ndigits_spec n Hn) as [Hlo _].
  destruct (Z_le_gt_dec (Dec.ndigits n) k) as [|Hgt]; [assumption|exfalso].
  assert (0 <= k).
  { destruct (Z_le_gt_dec 0 k); [assumption|].
    rewrite Z.pow_neg_r in Hk by lia. lia. }
  assert (10 ^ k <= 10 ^ (Dec.ndigits n - 1))
    by (apply Z.pow_le_mono_r; lia).
  lia.
Qed.

(** An exact result whose digits end below [Emax] is rounded without
    overflow. *)
Lemma fix_finite_Ok p s c e :
  1 <= p -> c = 0 \/ Dec.ndigits c + e <= Dec.Emax ->
  exists d, Dec.fix_finite p s c e = Ok d.
Proof.
  intros Hp Hc. unfold Dec.fix_finite.
  destruct (c =? 0) eqn:E0; [eauto|].
  apply Z.eqb_neq in E0. destruct Hc as [Hc|Hc]; [contradiction|].
  unfold Dec.Etop, Dec.Etiny, Dec.Emax, Dec.Emin in *.
  repeat match goal with
         | |- context [if ?b then Raise _ else _] =>
             let E := fresh "E" in
             destruct b eqn:E; [apply Z.ltb_lt in E; lia|]
         | |- context [if ?b then (_, _) else _] => destruct b
         | |- context [if ?b then _ else Ok _] => destruct b
         end; eauto.
Qed.

Lemma scaled_bound c e k :
  0 <= c -> 0 <= e -> Dec.ndigits c + e <= k -> c * 10 ^ e < 10 ^ k.
Proof.
  intros Hc He Hk.
  assert (Hd : 1 <= Dec.ndigits c) by apply digits_aux_pos.
  assert (Hpe : 0 < 10 ^ e) by (apply Z.pow_pos_nonneg; lia).
  destruct (Z.eq_dec c 0) as [->|Hne].
  - rewrite Z.mul_0_l. apply Z.pow_pos_nonneg; lia.
  - destruct (ndigits_spec c ltac:(lia)) as [_ Hhi].
    apply Z.lt_le_trans with (10 ^ Dec.ndigits c * 10 ^ e).
    + apply Z.mul_lt_mono_pos_r; assumption.
    + rewrite <- Z.pow_add_r by lia. apply Z.pow_le_mono_r; lia.
Qed.

Lemma add_ordinary a b :
  ordinary a -> ordinary b -> exists d, Dec.add prec a b = Ok d.
Proof.
  destruct a as [s1 c1 e1| |]; destruct b as [s2 c2 e2| |]; simpl;
    try contradiction.
  intros Ha Hb. unfold Dec.add. cbn [Dec.check_nans].
  set (e := Z.min e1 e2).
  set (A := Z.of_N c1 * 10 ^ (e1 - e)).
  set (B := Z.of_N c2 * 10 ^ (e2 - e)).
  assert (HA : 0 <= A < 10 ^ (Dec.Emax - 1 - e)).
  { split.
    - apply Z.mul_nonneg_nonneg; [lia|apply Z.pow_nonneg; lia].
    - apply scaled_bound; unfold e; lia. }
  assert (HB : 0 <= B < 10 ^ (Dec.Emax - 1 - e)).
  { split.
    - apply Z.mul_nonneg_nonneg; [lia|apply Z.pow_nonneg; lia].
    - apply scaled_bound; unfold e; lia. }
  assert (Hv : Dec.signed s1 c1 * 10 ^ (e1 - e) + Dec.signed s2 c2 * 10 ^ (e2 - e)
               = (if s1 then - A else A) + (if s2 then - B else B)).
  { unfold Dec.signed, A, B. destruct s1, s2; lia. }
  rewrite Hv.
  set (v := (if s1 then - A else A) + (if s2 then - B else B)).
  assert (Hd1 : 1 <= Dec.ndigits (Z.of_N c1)) by apply digits_aux_pos.
  assert (He : 0 <= Dec.Emax - 1 - e) by (unfold e; lia).
  assert (Hpow : 10 ^ (Dec.Emax - e) = 10 * 10 ^ (Dec.Emax - 1 - e)).
  { replace (Dec.Emax - e) with (Z.succ (Dec.Emax - 1 - e)) by lia.
    now rewrite Z.pow_succ_r. }
  destruct (v =? 0) eqn:E0.
  - apply fix_finite_Ok; [unfold prec; lia|now left].
  - apply Z.eqb_neq in E0.
    apply fix_finite_Ok; [unfold prec; lia|right].
    assert (Dec.ndigits (Z.abs v) <= Dec.Emax - e); [|lia].
    apply ndigits_le; [lia|]. rewrite Hpow.
    unfold v. destruct s1, s2; lia.
Qed.

Lemma sub_ordinary a b :
  ordinary a -> ordinary b -> exists d, Dec.sub prec a b = Ok d.
Proof.
  intros Ha Hb. unfold Dec.sub.
  destruct a as [s1 c1 e1| |]; destruct b as [s2 c2 e2| |]; simpl in Ha, Hb;
    try contradiction.
  cbn [Dec.check_nans Dec.copy_negate]. now apply add_ordinary.
Qed.

Section Elementwise.

Variable op : Decimal -> Decimal -> result Decimal.

Lemma elementwise_Ok xs ys zs : elementwise op xs ys = Ok zs -> pairwise op xs ys zs.
Proof.
  unfold elementwise, zip. revert ys zs.
  induction xs as [|x xs IH]; intros ys zs H.
  - inversion H. split; [reflexivity|]. intros [|i]; discriminate.
  - destruct ys as [|y ys].
    + inversion H. split; [reflexivity|]. intros [|i] ? ? _; discriminate.
    + cbn [combine comprehension] in H.
      apply bind_Ok in H as (z & Hz & H).
      apply bind_Ok in H as (zs' & Hzs & H). inversion H; subst.
      destruct (IH ys zs' Hzs) as [Hlen Hnth].
      split; [simpl; now rewrite Hlen|].
      intros [|i] x' y' Hx Hy; simpl in *.
      * inversion Hx; inversion Hy; subst. eauto.
      * eauto.
Qed.

Lemma elementwise_Raise xs ys e :
  elementwise op xs ys = Raise e ->
  exists i x y, nth_error xs i = Some x /\ nth_error ys i = Some y /\
                op x y = Raise e.
Proof.
  unfold elementwise, zip. revert ys.
  induction xs as [|x xs IH]; intros ys H; [discriminate|].
  destruct ys as [|y ys]; [discriminate|].
  cbn [combine comprehension] in H.
  destruct (op x y) as [z|e'] eqn:Hop; cbn [bind] in H.
  - destruct (comprehension _ (combine xs ys)) as [zs|e'] eqn:Hrest;
      cbn [bind] in H; [discriminate|].
    inversion H; subst.
    destruct (IH ys Hrest) as (i & x' & y' & Hx & Hy & Hxy).
    exists (S i), x', y'. auto.
  - inversion H; subst. exists 0%nat, x, y. auto.
Qed.

Lemma elementwise_nonempty x xs y ys zs :
  elementwise op (x :: xs) (y :: ys) = Ok zs -> zs <> [].
Proof.
  unfold elementwise, zip. cbn [combine comprehension]. intros H.
  apply bind_Ok in H as (z & _ & H). apply bind_Ok in H as (zs' & _ & H).
  inversion H. discriminate.
Qed.

End Elementwise.

Lemma elementwise_combines op method self v :
  (forall a b, method a b =
     (new_coordinates <-
        comprehension (fun '(x, y) => op x y)
          (zip (coordinates a) (coordinates b)) ;;
      Vector_of new_coordinates)) ->
  coordinates self <> [] -> coordinates v <> [] ->
  combines op method self v.
Proof.
  intros Hm Hs Hv. unfold combines. rewrite Hm.
  destruct (coordinates self) as [|x xs] eqn:Es; [contradiction|].
  destruct (coordinates v) as [|y ys] eqn:Ev; [contradiction|].
  destruct (comprehension _ (zip (x :: xs) (y :: ys))) as [zs|e] eqn:E;
    cbn [bind].
  - pose proof (elementwise_nonempty op x xs y ys zs E) as Hne.
    destruct zs as [|z zs]; [contradiction|]. rewrite Vector_of_cons.
    split; [|discriminate].
    intros r Hr. inversion Hr; subst. cbn [dimension coordinates].
    destruct (elementwise_Ok op _ _ _ E) as [Hlen Hnth].
    split; [exact Hlen|]. split; assumption.
  - split; [discriminate|].
    intros e' He'. inversion He'; subst.
    now apply elementwise_Raise.
Qed.

Lemma combines_total op method self v :
  combines op method self v ->
  (forall x y, In x (coordinates self) -> In y (coordinates v) ->
               exists z, op x y = Ok z) ->
  exists r, method self v = Ok r.
Proof.
  intros [_ Hraise] Hop.
  destruct (method self v) as [r|e]; [eauto|exfalso].
  destruct (Hraise e eq_refl) as (i & x & y & Hx & Hy & Hxy).
  apply nth_error_In in Hx, Hy.
  destruct (Hop x y Hx Hy) as (z & Hz). congruence.
Qed.

(** C8 (amended). [plus] and [minus] combine two vectors over their
    overlapping prefix, position by position, whether the dimensions are
    equal or not: a result has the dimension of the shorter operand, and
    the only exceptions are those an addition or a subtraction of two
    corresponding coordinates raises in the decimal context; there is
    none when all coordinates are finite with an adjusted exponent of at
    most [Emax - 2]. In particular [Vector([1,2]).plus(Vector([3,4]))
    == Vector([4,6])] and [Vector([1,2]).minus(Vector([3,4])) ==
    Vector([-2,-2])]. *)
Theorem plus_minus_overlapping_prefix :
  (forall self v, coordinates self <> [] -> coordinates v <> [] ->
     combines (Dec.add prec) plus self v /\
     combines (Dec.sub prec) minus self v /\
     (Forall ordinary (coordinates self) -> Forall ordinary (coordinates v) ->
      (exists r, plus self v = Ok r) /\ (exists r, minus self v = Ok r))) /\
  (a <- __init__ (ints [1; 2]) ;;
   b <- __init__ (ints [3; 4]) ;;
   r <- plus a b ;;
   c <- __init__ (ints [4; 6]) ;;
   __eq__ r c) = Ok true /\
  (a <- __init__ (ints [1; 2]) ;;
   b <- __init__ (ints [3; 4]) ;;
   r <- minus a b ;;
   c <- __init__ (ints [-2; -2]) ;;
   __eq__ r c) = Ok true.
Proof.
  split; [|split; vm_compute; reflexivity].
  intros self v Hs Hv.
  assert (Hp : combines (Dec.add prec) plus self v)
    by (apply elementwise_combines; auto).
  assert (Hm : combines (Dec.sub prec) minus self v)
    by (apply elementwise_combines; auto).
  split; [exact Hp|]. split; [exact Hm|].
  intros Fs Fv. rewrite Forall_forall in Fs, Fv. split.
  - apply (combines_total _ _ _ _ Hp). intros x y Hx Hy.
    apply add_ordinary; auto.
  - apply (combines_total _ _ _ _ Hm). intros x y Hx Hy.
    apply sub_ordinary; auto.
Qed.

Lemma plus_minus_overlapping_prefix_witness :
  combines (Dec.add prec) plus (vec [1; 2; 3]) (vec [3; 4]) /\
  combines (Dec.sub prec) minus (vec [1; 2; 3]) (vec [3; 4]) /\
  (exists r, plus (vec [1; 2; 3]) (vec [3; 4]) = Ok r) /\
  (exists r, minus (vec [1; 2; 3]) (vec [3; 4]) = Ok r).
Proof.
  destruct (proj1 plus_minus_overlapping_prefix (vec [1; 2; 3]) (vec [3; 4]))
    as (Hp & Hm & Htotal); try discriminate.
  split; [exact Hp|]. split; [exact Hm|].
  apply Htotal; repeat constructor.
Defined.

(** C8 as stated fails: the two vectors below have different dimensions,
    and [plus] and [minus] raise [decimal.Overflow], the sum (the
    difference) of their first coordinates being beyond [Emax]. *)
Lemma plus_minus_overflow :
  let a := mkVector [Finite false 9 999999; Finite false 1 0] 2 in
  let b := mkVector [Finite false 9 999999] 1 in
  let c := mkVector [Finite true 9 999999] 1 in
  __init__ (PyList [Num (PyDecimal (Finite false 9 999999)); Num (PyInt 1)]) = Ok a /\
  __init__ (PyList [Num (PyDecimal (Finite false 9 999999))]) = Ok b /\
  __init__ (PyList [Num (PyDecimal (Finite true 9 999999))]) = Ok c /\
  plus a b = Raise (Dec.signal Overflow) /\
  minus a c = Raise (Dec.signal Overflow).
Proof. cbv zeta. repeat split; vm_compute; reflexivity. Qed.

(** * Further properties *)

(** ** Magnitude *)

Lemma binary_round_aux_sign s m e l :
  match binary_round_aux Flt.prec Flt.emax s m e l with
  | S754_zero s' | S754_infinity s' | S754_finite s' _ _ => s' = s
  | S754_nan => True
  end.
Proof.
  unfold binary_round_aux.
  destruct (shr_fexp Flt.prec Flt.emax m e l) as [mrs' e'].
  destruct (shr_fexp Flt.prec Flt.emax _ e' loc_Exact) as [mrs'' e''].
  destruct (shr_m mrs''); try exact I; [reflexivity|].
  destruct (e'' <=? Flt.emax - Flt.prec); reflexivity.
Qed.

Lemma sqrt_not_negative x r : sqrt x = Ok r -> Flt.ltb r Flt.zero = false.
Proof.
  unfold sqrt, math_1. intros H. apply bind_Ok in H as (f & _ & H).
  destruct (Flt.is_nan (Flt.sqrt f) && negb (Flt.is_nan f)) eqn:E1;
    [discriminate|].
  destruct (Flt.is_infinite (Flt.sqrt f) && Flt.is_finite f);
    [discriminate|].
  inversion H; subst. clear H.
  destruct f as [s|[|]| |[|] m e]; try reflexivity; try discriminate E1.
  unfold Flt.sqrt, SFsqrt.
  destruct (SFsqrt_core_binary Flt.prec Flt.emax (Zpos m) e) as [[mz ez] lz].
  pose proof (binary_round_aux_sign false mz ez lz) as Hs.
  destruct (binary_round_aux Flt.prec Flt.emax false mz ez lz); subst;
    reflexivity.
Qed.

(** X1. A magnitude, and so the area of a parallelogram, is never a
    negative number. *)
Theorem magnitude_not_negative (self v : Vector) (m : float) :
  magnitude self = Ok m \/ area_of_parallelgram self v = Ok m ->
  Flt.ltb m Flt.zero = false.
Proof.
  intros [H | H].
  - apply bind_Ok in H as (sq & _ & H). apply bind_Ok in H as (t & _ & H).
    now apply sqrt_not_negative in H.
  - apply bind_Ok in H as (c & _ & H).
    apply bind_Ok in H as (sq & _ & H). apply bind_Ok in H as (t & _ & H).
    now apply sqrt_not_negative in H.
Qed.

Lemma magnitude_not_negative_witness :
  Flt.ltb (S754_finite false 5629499534213120 (-50)) Flt.zero = false.
Proof.
  apply (magnitude_not_negative (vec [3; 4]) (vec [3; 4])).
  left. vm_compute. reflexivity.
Defined.

Lemma pow2_zero d :
  Dec.is_zero_coeff d = true -> Dec.pow2 prec d = Ok (Finite false 0 0).
Proof. destruct d as [s [|c] e| |]; simpl; try discriminate. reflexivity. Qed.

Lemma sum_from_zeros n acc :
  acc = PyInt 0 \/ acc = PyDecimal (Finite false 0 0) ->
  sum_from acc (repeat (Finite false 0 0) n) = Ok acc
  \/ sum_from acc (repeat (Finite false 0 0) n)
     = Ok (PyDecimal (Finite false 0 0)).
Proof.
  revert acc. induction n as [|n IH]; intros acc Hacc; [now left|].
  right. cbn [repeat sum_from].
  assert (Hadd : number_add acc (PyDecimal (Finite false 0 0))
                 = Ok (PyDecimal (Finite false 0 0)))
    by (destruct Hacc as [-> | ->]; reflexivity).
  rewrite Hadd. cbn [bind].
  destruct (IH (PyDecimal (Finite false 0 0))) as [H | H]; auto.
Qed.

Lemma magnitude_zero_vector self :
  zero_vector self -> magnitude self = Ok Flt.zero.
Proof.
  intros Hz. unfold magnitude.
  assert (Hsq : comprehension (Dec.pow2 prec) (coordinates self)
                = Ok (repeat (Finite false 0 0) (List.length (coordinates self)))).
  { unfold zero_vector in Hz.
    induction Hz as [|d ds Hd _ IH]; [reflexivity|].
    cbn [comprehension List.length repeat]. rewrite (pow2_zero d Hd), IH.
    reflexivity. }
  rewrite Hsq. cbn [bind]. unfold sum.
  destruct (sum_from_zeros (List.length (coordinates self)) (PyInt 0))
    as [H | H]; auto; rewrite H; reflexivity.
Qed.

(** X2. A vector all of whose coordinates are zeros has magnitude [0.0]:
    it is a zero vector for [is_zero], and [normalized] raises the
    exception of the zero vector. *)
Theorem zero_vector_magnitude (self : Vector) :
  zero_vector self ->
  magnitude self = Ok Flt.zero /\
  is_zero self default_tolerance = Ok true /\
  normalized self = Raise zero_vector_exn.
Proof.
  intros Hz. pose proof (magnitude_zero_vector self Hz) as Hm.
  split; [exact Hm|]. split.
  - unfold is_zero. rewrite Hm. reflexivity.
  - now apply (normalized_zero_magnitude self Flt.zero).
Qed.

Lemma zero_vector_magnitude_witness :
  magnitude (mkVector [Finite true 0 (-2); Finite false 0 5] 2) = Ok Flt.zero /\
  is_zero (mkVector [Finite true 0 (-2); Finite false 0 5] 2) default_tolerance
  = Ok true /\
  normalized (mkVector [Finite true 0 (-2); Finite false 0 5] 2)
  = Raise zero_vector_exn.
Proof.
  apply (zero_vector_magnitude (mkVector [Finite true 0 (-2); Finite false 0 5] 2)).
  repeat constructor.
Defined.

(** ** Commutativity *)

Lemma mul_comm p a b : Dec.mul p a b = Dec.mul p b a.
Proof.
  destruct a as [s1 c1 e1|s1|[|]]; destruct b as [s2 c2 e2|s2|[|]];
    try reflexivity; unfold Dec.mul; cbn [Dec.check_nans].
  - now rewrite xorb_comm, Z.mul_comm, Z.add_comm.
  - now rewrite xorb_comm.
  - now rewrite xorb_comm.
  - now rewrite xorb_comm.
Qed.

Lemma add_comm p a b : Dec.add p a b = Dec.add p b a.
Proof.
  destruct a as [s1 c1 e1|s1|[|]]; destruct b as [s2 c2 e2|s2|[|]];
    try reflexivity; unfold Dec.add; cbn [Dec.check_nans].
  - rewrite (Z.min_comm e2 e1), (andb_comm s2 s1).
    now rewrite (Z.add_comm (Dec.signed s2 c2 * _)).
  - destruct s1, s2; reflexivity.
Qed.

Lemma comprehension_zip_swap {B} (f g : Decimal * Decimal -> result B)
  (xs ys : list Decimal) :
  (forall x y, f (x, y) = g (y, x)) ->
  comprehension f (zip xs ys) = comprehension g (zip ys xs).
Proof.
  intros Hfg. unfold zip. revert ys.
  induction xs as [|x xs IH]; intros [|y ys]; try reflexivity.
  cbn [combine comprehension]. now rewrite Hfg, IH.
Qed.

(** X3. On vectors without NaN coordinates, [dot] and [plus] are
    commutative, exactly: the same result or the same exception. *)
Theorem dot_plus_commutative (self v : Vector) :
  nan_free self -> nan_free v ->
  dot self v = dot v self /\ plus self v = plus v self.
Proof.
  intros _ _. unfold dot, plus. split.
  - rewrite (comprehension_zip_swap _ (fun '(x, y) => Dec.mul prec x y)
               (coordinates self) (coordinates v)); [reflexivity|].
    intros x y. apply mul_comm.
  - rewrite (comprehension_zip_swap _ (fun '(x, y) => Dec.add prec x y)
               (coordinates self) (coordinates v)); [reflexivity|].
    intros x y. apply add_comm.
Qed.

Lemma dot_plus_commutative_witness :
  dot (vec [1; 2; 3]) (vec [4; 5]) = dot (vec [4; 5]) (vec [1; 2; 3]) /\
  plus (vec [1; 2; 3]) (vec [4; 5]) = plus (vec [4; 5]) (vec [1; 2; 3]).
Proof.
  apply (dot_plus_commutative (vec [1; 2; 3]) (vec [4; 5]));
    repeat constructor.
Defined.

Lemma fix_finite_sign p s c e d :
  Dec.fix_finite p s c e = Ok d -> exists c' e', d = Finite s c' e'.
Proof.
  unfold Dec.fix_finite.
  repeat match goal with
         | |- context [if ?b then _ else _] => destruct b
         | |- context [let '(_, _) := ?x in _] => destruct x
         end; intros H; inversion H; eauto.
Qed.

Lemma mul_self_unsigned x d :
  Dec.mul prec x x = Ok d -> unsigned (PyDecimal d).
Proof.
  destruct x as [s c e|s|[|]]; unfold Dec.mul; cbn [Dec.check_nans];
    try discriminate.
  - rewrite xorb_nilpotent. intros H.
    apply fix_finite_sign in H as (c' & e' & ->). reflexivity.
  - rewrite xorb_nilpotent. intros H. inversion H. reflexivity.
  - intros H. inversion H. exact I.
Qed.

Lemma add_unsigned a b d :
  unsigned (PyDecimal a) -> unsigned (PyDecimal b) ->
  Dec.add prec a b = Ok d -> unsigned (PyDecimal d).
Proof.
  destruct a as [s1 c1 e1|s1|[|]]; destruct b as [s2 c2 e2|s2|[|]];
    cbn [unsigned]; intros Ha Hb; subst;
    unfold Dec.add; cbn [Dec.check_nans]; try discriminate;
    try (intros H; inversion H; subst; cbn; auto; fail).
  set (v := Dec.signed false c1 * _ + Dec.signed false c2 * _).
  assert (Hv : 0 <= v).
  { unfold v, Dec.signed.
    apply Z.add_nonneg_nonneg; apply Z.mul_nonneg_nonneg;
      try apply Z.pow_nonneg; lia. }
  destruct (v =? 0).
  - intros H. apply fix_finite_sign in H as (c' & e' & ->). reflexivity.
  - replace (v <? 0) with false by (symmetry; apply Z.ltb_ge; assumption).
    intros H. apply fix_finite_sign in H as (c' & e' & ->). reflexivity.
Qed.

Lemma sum_from_unsigned xs acc n :
  unsigned acc -> Forall (fun d => unsigned (PyDecimal d)) xs ->
  sum_from acc xs = Ok n -> unsigned n.
Proof.
  revert acc. induction xs as [|x xs IH]; intros acc Hacc Hxs H.
  - inversion H; subst. exact Hacc.
  - inversion Hxs as [|? ? Hx Hxs']; subst. cbn [sum_from] in H.
    apply bind_Ok in H as (acc' & Ha & H).
    apply (IH acc'); [|assumption|assumption].
    destruct acc as [z|f|a]; cbn [unsigned number_add] in *;
      [|contradiction|].
    + apply bind_Ok in Ha as (d & Hd & Ha). inversion Ha; subst.
      apply (add_unsigned (Decimal_of_Z z) x d); [|assumption|assumption].
      unfold Decimal_of_Z. cbn [unsigned Decimal_of_number].
      apply Z.ltb_ge. assumption.
    + apply bind_Ok in Ha as (d & Hd & Ha). inversion Ha; subst.
      now apply (add_unsigned a x d).
Qed.

(** X4. The dot product of a vector with itself never carries a minus
    sign: it is the integer 0 (no coordinates), a decimal that is not
    negative, or a NaN. *)
Theorem dot_self_unsigned (self : Vector) (n : number) :
  dot self self = Ok n -> unsigned n.
Proof.
  unfold dot. intros H. apply bind_Ok in H as (ps & Hps & H).
  apply (sum_from_unsigned ps (PyInt 0)); [cbn; lia| |exact H].
  clear H. revert ps Hps. unfold zip.
  induction (coordinates self) as [|x xs IH]; intros ps Hps.
  - inversion Hps. constructor.
  - cbn [combine comprehension] in Hps.
    apply bind_Ok in Hps as (d & Hd & Hps).
    apply bind_Ok in Hps as (ps' & Hps' & Hps). inversion Hps; subst.
    constructor; [now apply (mul_self_unsigned x)|now apply IH].
Qed.

Lemma dot_self_unsigned_witness : unsigned (PyDecimal (Finite false 25 0)).
Proof.
  apply (dot_self_unsigned (vec [-3; 4])). vm_compute. reflexivity.
Defined.

(** ** Dimensions *)

Lemma comprehension_same_length {A B} (f : A -> result B) xs ys :
  comprehension f xs = Ok ys -> List.length ys = List.length xs.
Proof.
  revert ys. induction xs as [|x xs IH]; cbn [comprehension]; intros ys H.
  - now inversion H.
  - apply bind_Ok in H as (y & _ & H). apply bind_Ok in H as (ys' & Hys & H).
    inversion H; subst. cbn [List.length]. f_equal. now apply IH.
Qed.

Lemma times_scalar_length self s r :
  times_scalar self s = Ok r ->
  List.length (coordinates r) = List.length (coordinates self).
Proof.
  intros H. apply bind_Ok in H as (cs & Hcs & H).
  apply Vector_of_Ok in H as (-> & _).
  now apply comprehension_same_length in Hcs.
Qed.

Lemma normalized_length self u :
  normalized self = Ok u ->
  List.length (coordinates u) = List.length (coordinates self).
Proof.
  intros H. apply try_except_Ok in H; [|eauto].
  apply bind_Ok in H as (m & _ & H). apply bind_Ok in H as (q & _ & H).
  now apply times_scalar_length in H.
Qed.

(** X5. [times_scalar] and [normalized] keep the dimension: the vector
    returned has as many coordinates as [self], and that number as its
    [dimension]. *)
Theorem times_scalar_normalized_dimension (self r : Vector) (scalar : number) :
  times_scalar self scalar = Ok r \/ normalized self = Ok r ->
  dimension r = List.length (coordinates self) /\
  List.length (coordinates r) = List.length (coordinates self).
Proof.
  intros [H | H].
  - pose proof (times_scalar_length _ _ _ H) as Hlen.
    destruct (times_scalar_well_formed _ _ _ H) as [Hdim _].
    split; congruence.
  - pose proof (normalized_length _ _ H) as Hlen.
    destruct (normalized_well_formed _ _ H) as [Hdim _].
    split; congruence.
Qed.

Lemma times_scalar_normalized_dimension_witness :
  dimension (mkVector [Finite false 6 (-1); Finite false 8 (-1)] 2)
  = List.length (coordinates (vec [3; 4])) /\
  List.length (coordinates (mkVector [Finite false 6 (-1); Finite false 8 (-1)] 2))
  = List.length (coordinates (vec [3; 4])).
Proof.
  apply (times_scalar_normalized_dimension (vec [3; 4]) _ (PyInt 0)).
  right. vm_compute. reflexivity.
Defined.

(** X6. The projection [component_parallel_to] has the dimension of the
    basis, not of [self]; [component_orthogonal_to] has the smaller of
    the two dimensions. *)
Theorem component_dimensions (self basis r : Vector) :
  (component_parallel_to self basis = Ok r ->
   dimension r = List.length (coordinates basis)) /\
  (component_orthogonal_to self basis = Ok r ->
   dimension r = Nat.min (List.length (coordinates self))
                   (List.length (coordinates basis))).
Proof.
  assert (Hpar : forall r', component_parallel_to self basis = Ok r' ->
                 dimension r' = List.length (coordinates basis) /\
                 List.length (coordinates r') = List.length (coordinates basis)).
  { intros r' H. pose proof (component_parallel_to_well_formed _ _ _ H) as [Hd _].
    apply try_except_Ok in H; [|intros e; apply handler_raises].
    apply bind_Ok in H as (u & Hu & H). apply bind_Ok in H as (w & _ & H).
    apply times_scalar_length in H. apply normalized_length in Hu.
    split; congruence. }
  split.
  - intros H. now apply Hpar.
  - intros H. pose proof (component_orthogonal_to_well_formed _ _ _ H) as [Hd _].
    apply try_except_Ok in H; [|intros e; apply handler_raises].
    apply bind_Ok in H as (p & Hp & H). apply Hpar in Hp as [_ Hp].
    apply bind_Ok in H as (cs & Hcs & H).
    apply Vector_of_Ok in H as (-> & _).
    apply comprehension_same_length in Hcs. cbn [dimension].
    unfold zip in Hcs. rewrite length_combine in Hcs. congruence.
Qed.

(** X7. [cross_product] returns only for two operands of exactly three
    coordinates each, and what it returns has dimension 3. *)
Theorem cross_product_three_dimensions (self v r : Vector) :
  cross_product self v = Ok r ->
  List.length (coordinates self) = 3%nat /\
  List.length (coordinates v) = 3%nat /\
  dimension r = 3%nat /\ List.length (coordinates r) = 3%nat.
Proof.
  intros H. apply try_except_Ok in H; [|intros e; cbv zeta; apply handler_raises].
  apply bind_Ok in H as ([[x_1 y_1] z_1] & H1 & H).
  apply bind_Ok in H as ([[x_2 y_2] z_2] & H2 & H).
  repeat (apply bind_Ok in H as (? & _ & H)).
  rewrite Vector_of_cons in H. inversion H; subst. cbn [dimension coordinates].
  assert (Hu : forall t p, unpack3 t = Ok p -> List.length t = 3%nat).
  { intros [|a [|b [|c [|d t]]]] p Hp; try discriminate Hp. reflexivity. }
  repeat split; eauto.
Qed.

Lemma cross_product_three_dimensions_witness :
  List.length (coordinates (vec [5; 3; -2])) = 3%nat /\
  List.length (coordinates (vec [-1; 0; 3])) = 3%nat /\
  dimension (vec [9; -13; 3]) = 3%nat /\
  List.length (coordinates (vec [9; -13; 3])) = 3%nat.
Proof.
  apply (cross_product_three_dimensions (vec [5; 3; -2]) (vec [-1; 0; 3])).
  vm_compute. reflexivity.
Defined.

Lemma component_dimensions_witness :
  dimension (mkVector [Finite false 100 (-2); Finite false 0 (-2)] 2)
  = List.length (coordinates (vec [2; 0])).
Proof.
  apply (proj1 (component_dimensions (vec [1; 1; 1]) (vec [2; 0]) _)).
  vm_compute. reflexivity.
Defined.

(** ** The cross product of a vector with itself *)

Lemma mul_not_nan p a b d :
  not_nan a -> not_nan b -> Dec.mul p a b = Ok d -> not_nan d.
Proof.
  destruct a as [s1 c1 e1|s1|[|]]; destruct b as [s2 c2 e2|s2|[|]];
    cbn [not_nan]; try contradiction; intros _ _;
    unfold Dec.mul; cbn [Dec.check_nans].
  - intros H. apply fix_finite_Finite in H as (s & c & e & ->). exact I.
  - destruct (c1 =? 0)%N; [discriminate|]. intros H; inversion H. exact I.
  - destruct (c2 =? 0)%N; [discriminate|]. intros H; inversion H. exact I.
  - intros H; inversion H. exact I.
Qed.

Lemma fix_finite_zero p s e d :
  Dec.fix_finite p s 0 e = Ok d -> Dec.is_zero_coeff d = true.
Proof. unfold Dec.fix_finite. cbn. intros H. inversion H. reflexivity. Qed.

(** [x - x] is a zero, unless [x] is an infinity, when it raises. *)
Lemma sub_self_zero p a d :
  not_nan a -> Dec.sub p a a = Ok d -> Dec.is_zero_coeff d = true.
Proof.
  destruct a as [s c e|s|[|]]; cbn [not_nan]; try contradiction; intros _;
    unfold Dec.sub; cbn [Dec.check_nans Dec.copy_negate]; unfold Dec.add;
    cbn [Dec.check_nans].
  - rewrite Z.min_id, Z.sub_diag.
    replace (Dec.signed s c * 10 ^ 0 + Dec.signed (negb s) c * 10 ^ 0) with 0
      by (unfold Dec.signed; destruct s; cbn [negb]; lia).
    cbn [Z.eqb]. apply fix_finite_zero.
  - rewrite eqb_negb2. discriminate.
Qed.

Lemma neg_zero p a d :
  Dec.is_zero_coeff a = true -> Dec.neg p a = Ok d ->
  Dec.is_zero_coeff d = true.
Proof.
  destruct a as [s [|c] e|s|[|]]; cbn [Dec.is_zero_coeff]; try discriminate.
  intros _. cbn [Dec.neg N.eqb Z.of_N]. apply fix_finite_zero.
Qed.

(** X8. For a vector without NaN coordinates, the cross product with
    itself, when it returns, is a zero vector, and the area of the
    parallelogram is [0.0]. *)
Theorem cross_product_self (self r : Vector) :
  nan_free self -> cross_product self self = Ok r ->
  zero_vector r /\ area_of_parallelgram self self = Ok Flt.zero.
Proof.
  intros Hn H.
  assert (Hz : zero_vector r).
  { apply try_except_Ok in H; [|intros e; cbv zeta; apply handler_raises].
    apply bind_Ok in H as ([[x y] z] & Hu & H).
    rewrite Hu in H. cbn [bind] in H.
    assert (Hxyz : not_nan x /\ not_nan y /\ not_nan z).
    { unfold nan_free in Hn.
      destruct (coordinates self) as [|a [|b [|c [|d t]]]]; try discriminate Hu.
      inversion Hu; subst.
      inversion Hn as [|? ? Ha Hn1]; subst.
      inversion Hn1 as [|? ? Hb Hn2]; subst.
      inversion Hn2 as [|? ? Hc _]; subst. auto. }
    destruct Hxyz as (Hx & Hy & Hz).
    apply bind_Ok in H as (a1 & Ha1 & H). rewrite Ha1 in H. cbn [bind] in H.
    apply bind_Ok in H as (c_x & Hcx & H).
    apply bind_Ok in H as (a2 & Ha2 & H). rewrite Ha2 in H. cbn [bind] in H.
    apply bind_Ok in H as (d2 & Hd2 & H).
    apply bind_Ok in H as (c_y & Hcy & H).
    apply bind_Ok in H as (a3 & Ha3 & H). rewrite Ha3 in H. cbn [bind] in H.
    apply bind_Ok in H as (c_z & Hcz & H).
    rewrite Vector_of_cons in H. inversion H; subst. unfold zero_vector.
    cbn [coordinates].
    apply sub_self_zero in Hcx; [|now apply (mul_not_nan prec y z)].
    apply sub_self_zero in Hd2; [|now apply (mul_not_nan prec x z)].
    apply sub_self_zero in Hcz; [|now apply (mul_not_nan prec x y)].
    apply (neg_zero prec d2) in Hcy; [|assumption].
    repeat constructor; assumption. }
  split; [exact Hz|].
  unfold area_of_parallelgram. rewrite H. cbn [bind].
  now apply magnitude_zero_vector.
Qed.

Lemma cross_product_self_witness :
  zero_vector (vec [0; 0; 0]) /\
  area_of_parallelgram (vec [1; 2; 3]) (vec [1; 2; 3]) = Ok Flt.zero.
Proof.
  apply (cross_product_self (vec [1; 2; 3]) (vec [0; 0; 0])).
  - repeat constructor.
  - vm_compute. reflexivity.
Defined.

(** ** Which exceptions the methods raise *)

Lemma normalized_raises self :
  raises (fun e => benign e \/ e = zero_vector_exn) (normalized self).
Proof.
  rewrite normalized_spec.
  pose proof (magnitude_raises self) as Hm.
  destruct (magnitude self) as [m|e]; cbn [raises] in *; [|now left].
  destruct (Flt.is_zero m) eqn:Hz; cbn [raises]; [now right|].
  eapply raises_weaken; [intros e H; left; exact H|].
  apply benign_bind.
  - apply arith_is_benign, div_nonzero_raises. now rewrite to_Decimal_zero_coeff.
  - intros q. apply times_scalar_raises.
Qed.

Lemma minus_benign self v : raises benign (minus self v).
Proof.
  unfold minus. apply benign_bind.
  - apply arith_is_benign, raises_comprehension. intros [x y]. apply sub_raises.
  - intros cs. apply Vector_of_raises.
Qed.

Lemma component_parallel_to_raises self basis :
  raises (fun e => benign e \/ e = component_exn)
    (component_parallel_to self basis).
Proof.
  unfold component_parallel_to.
  pose proof (normalized_raises basis) as Hn.
  destruct (normalized basis) as [u|e]; cbn [bind try_except raises] in *.
  - assert (Hb : raises benign (weight <- dot self u ;; times_scalar u weight)).
    { apply benign_bind; [apply dot_raises|]. intros w.
      apply times_scalar_raises. }
    destruct (weight <- dot self u ;; times_scalar u weight) as [r|e];
      cbn [try_except dispatch raises issubclass] in *; [exact I|].
    rewrite (benign_not_normalize_msg e Hb). now left.
  - cbn [dispatch issubclass]. destruct Hn as [Hn | ->].
    + rewrite (benign_not_normalize_msg e Hn). now left.
    + cbn. now right.
Qed.

Lemma not_parallel_msg e :
  benign e \/ e = component_exn ->
  (str e =? NO_UNIQUE_PARALLEL_COMPONENT_MSG)%string = false.
Proof.
  intros [H | ->]; [|reflexivity].
  unfold benign, benign_exns in H. cbn [In] in H.
  repeat (destruct H as [<- | H]; [reflexivity|]). contradiction.
Qed.

(** X9. No exception carries the message "No unique parallel component
    exists": the handler of [component_orthogonal_to] is never entered,
    the method is [self.minus(self.component_parallel_to(basis))] with
    the exceptions of the two calls unchanged, and these are a benign
    one or the one with the "orthogonal" message. *)
Theorem component_orthogonal_to_handler_unused (self basis : Vector) :
  component_orthogonal_to self basis
  = (v_parallel <- component_parallel_to self basis ;; minus self v_parallel) /\
  (forall e, component_parallel_to self basis = Raise e
             \/ component_orthogonal_to self basis = Raise e ->
             (benign e \/ e = component_exn) /\
             str e <> NO_UNIQUE_PARALLEL_COMPONENT_MSG).
Proof.
  assert (Hbody : raises (fun e => benign e \/ e = component_exn)
                    (v_parallel <- component_parallel_to self basis ;;
                     minus self v_parallel)).
  { apply raises_bind; [apply component_parallel_to_raises|].
    intros p _. eapply raises_weaken; [|apply minus_benign].
    intros e H. now left. }
  assert (Heq : component_orthogonal_to self basis
                = (v_parallel <- component_parallel_to self basis ;;
                   minus self v_parallel)).
  { unfold component_orthogonal_to.
    destruct (v_parallel <- component_parallel_to self basis ;;
              minus self v_parallel) as [r|e];
      cbn [try_except dispatch issubclass raises] in *; [reflexivity|].
    now rewrite (not_parallel_msg e Hbody). }
  split; [exact Heq|].
  intros e He.
  assert (Hc : benign e \/ e = component_exn).
  { destruct He as [He | He].
    - exact (raises_inv (fun x => benign x \/ x = component_exn) _ e
               (component_parallel_to_raises self basis) He).
    - rewrite Heq in He.
      exact (raises_inv (fun x => benign x \/ x = component_exn) _ e Hbody He). }
  split; [exact Hc|].
  pose proof (not_parallel_msg e Hc) as Hmsg.
  intros Habs. rewrite Habs in Hmsg. discriminate Hmsg.
Qed.

Section AngleErrors.

Variable libm_acos : float -> float.

Lemma angle_with_raises self v in_degrees :
  raises (fun e => benign e \/ e = angle_exn)
    (angle_with libm_acos self v in_degrees).
Proof.
  pose proof (normalized_raises self) as H1.
  pose proof (normalized_raises v) as H2.
  destruct (normalized self) as [u1|e1] eqn:E1.
  - destruct (normalized v) as [u2|e2] eqn:E2.
    + rewrite (angle_with_normalized libm_acos self v in_degrees u1 u2 E1 E2).
      eapply raises_weaken; [intros e H; left; exact H|].
      destruct (_ =? _); [exact I|].
      apply benign_bind; [apply dot_raises|]. intros d.
      apply benign_bind; [apply acos_raises|]. intros a. exact I.
    + unfold angle_with. rewrite E1, E2.
      cbn [bind try_except dispatch issubclass raises] in *.
      destruct H2 as [H2 | ->]; [|cbn; now right].
      rewrite (benign_not_normalize_msg e2 H2). now left.
  - unfold angle_with. rewrite E1.
    cbn [bind try_except dispatch issubclass raises] in *.
    destruct H1 as [H1 | ->]; [|cbn; now right].
    rewrite (benign_not_normalize_msg e1 H1). now left.
Qed.

Lemma not_zero_normalized_benign self :
  is_zero self default_tolerance = Ok false -> raises benign (normalized self).
Proof.
  intros H. apply bind_Ok in H as (m & Hm & H). inversion H as [Hlt].
  rewrite normalized_spec, Hm.
  destruct (Flt.is_zero m) eqn:Hz.
  - destruct m as [s| | |]; try discriminate Hz.
    assert (Flt.ltb (S754_zero s) default_tolerance = true)
      by (destruct s; vm_compute; reflexivity).
    congruence.
  - apply benign_bind.
    + apply arith_is_benign, div_nonzero_raises.
      now rewrite to_Decimal_zero_coeff.
    + intros q. apply times_scalar_raises.
Qed.

Lemma angle_with_benign self v in_degrees :
  raises benign (normalized self) -> raises benign (normalized v) ->
  raises benign (angle_with libm_acos self v in_degrees).
Proof.
  intros H1 H2.
  pose proof (angle_with_raises self v in_degrees) as Ha.
  destruct (angle_with libm_acos self v in_degrees) as [a|e] eqn:E;
    [exact I|].
  cbn [raises] in *. destruct Ha as [Ha | ->]; [exact Ha|exfalso].
  unfold angle_with in E.
  destruct (normalized self) as [u1|e1].
  - destruct (normalized v) as [u2|e2] eqn:E2.
    + revert E. fold (angle_with libm_acos self v in_degrees).
      assert (Hn : normalized v = Ok u2) by exact E2. clear E2.
      intros E.
      assert (Hb : raises benign (Raise (A := number) angle_exn)).
      { rewrite <- E. cbn [bind].
        match goal with
        | |- raises benign (try_except ?body _) =>
            assert (Hbody : raises benign body)
        end.
        { apply benign_bind; [apply arith_is_benign, raises_comprehension|].
          - intros [x y]. unfold Dec.eq.
            destruct (Dec.is_snan x || Dec.is_snan y); cbn; [|exact I].
            right. reflexivity.
          - intros tp. destruct (_ =? _); [exact I|].
            apply benign_bind; [apply dot_raises|]. intros d.
            apply benign_bind; [apply acos_raises|]. intros a.
            destruct in_degrees; exact I. }
        match goal with
        | |- raises benign (try_except ?body _) => destruct body as [r|e0]
        end; cbn [try_except dispatch issubclass raises] in *; [exact I|].
        now rewrite (benign_not_normalize_msg e0 Hbody). }
      cbn [raises] in Hb. unfold benign, benign_exns in Hb. cbn [In] in Hb.
      repeat (destruct Hb as [Hb | Hb]; [discriminate Hb|]). contradiction.
    + cbn [bind try_except dispatch issubclass raises] in *.
      rewrite (benign_not_normalize_msg e2 H2) in E. inversion E; subst.
      unfold benign, benign_exns in H2. cbn [In] in H2.
      repeat (destruct H2 as [H2 | H2]; [discriminate H2|]). contradiction.
  - cbn [bind try_except dispatch issubclass raises] in *.
    rewrite (benign_not_normalize_msg e1 H1) in E. inversion E; subst.
    unfold benign, benign_exns in H1. cbn [In] in H1.
    repeat (destruct H1 as [H1 | H1]; [discriminate H1|]). contradiction.
Qed.

(** X10. [angle_with] never lets the exception of [normalized] through:
    what it raises is a benign exception or the one with the message
    "Cannot compute an angle with the zero vector". [is_parallel_to]
    raises neither: its tests for a zero vector come first, and all it
    can raise is benign (a signal of the decimal context or a domain
    error of [acos], for instance). *)
Theorem angle_exceptions (self v : Vector) (in_degrees : bool) (e : exn) :
  (angle_with libm_acos self v in_degrees = Raise e ->
   (benign e \/ e = angle_exn) /\ e <> zero_vector_exn) /\
  (is_parallel_to libm_acos self v = Raise e ->
   benign e /\ e <> angle_exn /\ e <> zero_vector_exn).
Proof.
  assert (Hnz : forall x, benign x -> x <> angle_exn /\ x <> zero_vector_exn).
  { intros x Hx. unfold benign, benign_exns in Hx. cbn [In] in Hx.
    repeat (destruct Hx as [<- | Hx]; [split; discriminate|]). contradiction. }
  split.
  - intros H.
    assert (Hc : benign e \/ e = angle_exn)
      by exact (raises_inv (fun x => benign x \/ x = angle_exn) _ e
                  (angle_with_raises self v in_degrees) H).
    split; [exact Hc|].
    destruct Hc as [Hc | ->]; [now apply Hnz|discriminate].
  - intros H.
    assert (Hb : benign e); [|split; [exact Hb|now apply Hnz]].
    unfold is_parallel_to in H.
    destruct (is_zero self default_tolerance) as [[|]|e1] eqn:Z1;
      cbn [bind] in H; [discriminate| |].
    + destruct (is_zero v default_tolerance) as [[|]|e2] eqn:Z2;
        cbn [bind] in H; [discriminate| |].
      * pose proof (angle_with_benign self v false
                      (not_zero_normalized_benign self Z1)
                      (not_zero_normalized_benign v Z2)) as Ha.
        destruct (angle_with libm_acos self v false) as [a|ea];
          cbn [bind] in H.
        -- destruct (number_eq a (PyInt 0)); discriminate.
        -- inversion H; subst. exact Ha.
      * inversion H; subst.
        eapply raises_inv; [|exact Z2].
        unfold is_zero. apply benign_bind; [apply magnitude_raises|].
        intros m. exact I.
    + inversion H; subst.
      eapply raises_inv; [|exact Z1].
      unfold is_zero. apply benign_bind; [apply magnitude_raises|].
      intros m. exact I.
Qed.

End AngleErrors.

Lemma angle_exceptions_witness :
  (benign angle_exn \/ angle_exn = angle_exn) /\ angle_exn <> zero_vector_exn.
Proof.
  apply (proj1 (angle_exceptions (fun x => x) (vec [1; 0]) (vec [0; 0]) false
                  angle_exn)).
  vm_compute. reflexivity.
Defined.

(** ** More on the constructor *)

Lemma comprehension_Decimal_new_None items :
  In PyNone items ->
  comprehension Decimal_new items
  = Raise (mkExn TypeError "conversion from NoneType to Decimal is not supported").
Proof.
  induction items as [|x items IH]; intros Hin; [contradiction|].
  cbn [comprehension]. destruct x as [|n]; [reflexivity|].
  destruct Hin as [Hin | Hin]; [discriminate|].
  cbn [Decimal_new bind]. now rewrite (IH Hin).
Qed.

(** X11. A list or a tuple that holds a [None] is refused with the
    message made for an argument that is not a sequence, "The coordinates
    must be an iterable": the [TypeError] of the failed conversion is the
    one the constructor catches. *)
Theorem init_sequence_with_None (items : list scalar) :
  In PyNone items ->
  __init__ (PyList items)
  = Raise (mkExn TypeError "The coordinates must be an iterable") /\
  __init__ (PyTuple items)
  = Raise (mkExn TypeError "The coordinates must be an iterable").
Proof.
  intros Hin. unfold __init__.
  destruct items as [|x items]; [contradiction|].
  cbn [truth negb iterate bind].
  rewrite (comprehension_Decimal_new_None _ Hin). split; reflexivity.
Qed.

Lemma init_sequence_with_None_witness :
  __init__ (PyList [Num (PyInt 1); PyNone])
  = Raise (mkExn TypeError "The coordinates must be an iterable") /\
  __init__ (PyTuple [Num (PyInt 1); PyNone])
  = Raise (mkExn TypeError "The coordinates must be an iterable").
Proof.
  apply (init_sequence_with_None [Num (PyInt 1); PyNone]).
  right. left. reflexivity.
Defined.

Lemma comprehension_Decimal_new_Ok items ds :
  comprehension Decimal_new items = Ok ds ->
  exists numbers,
    items = map Num numbers /\ ds = map Decimal_of_number numbers.
Proof.
  revert ds. induction items as [|i items IH]; intros ds Hc.
  - inversion Hc. exists []. split; reflexivity.
  - cbn [comprehension] in Hc. apply bind_Ok in Hc as (d & Hd & Hc).
    apply bind_Ok in Hc as (ds' & Hds & Hc). inversion Hc; subst.
    destruct i as [|n]; [discriminate Hd|]. inversion Hd; subst.
    destruct (IH ds' Hds) as (numbers & Hi & Hd').
    exists (n :: numbers). split; cbn [map]; congruence.
Qed.

Lemma init_sequence_Ok items self :
  items <> [] ->
  try_except
    (decimals <- comprehension Decimal_new items ;;
     Ok (mkVector decimals (List.length items)))
    [ (ValueError,
        fun _ => Raise (mkExn ValueError "The coordinates must be nonempty"));
      (TypeError,
        fun _ => Raise (mkExn TypeError "The coordinates must be an iterable")) ]
  = Ok self ->
  exists numbers,
    items = map Num numbers /\
    coordinates self = map Decimal_of_number numbers /\
    dimension self = List.length items /\ well_formed self.
Proof.
  intros Hne Hr.
  destruct (comprehension Decimal_new items) as [ds|e] eqn:Hc;
    cbn [bind try_except dispatch] in Hr.
  - inversion Hr; subst. clear Hr.
    destruct (comprehension_Decimal_new_Ok items ds Hc) as (numbers & Hi & Hd).
    exists numbers. cbn [coordinates dimension].
    split; [exact Hi|]. split; [exact Hd|]. split; [reflexivity|].
    split; cbn [coordinates dimension].
    + subst. now rewrite !length_map.
    + destruct items; [now destruct Hne|cbn; lia].
  - destruct (issubclass (class_of e) ValueError); [discriminate Hr|].
    destruct (issubclass (class_of e) TypeError); discriminate Hr.
Qed.

(** X12. The constructor returns only for a nonempty list or tuple of
    numbers; the vector it returns holds the exact decimal of each
    number, in order, no digit rounded away, and has the length of the
    sequence as its dimension. *)
Theorem init_returns_only_for_sequences (x : value) (self : Vector) :
  __init__ x = Ok self ->
  exists items numbers,
    (x = PyList items \/ x = PyTuple items) /\
    items <> [] /\
    items = map Num numbers /\
    coordinates self = map Decimal_of_number numbers /\
    dimension self = List.length items /\
    well_formed self.
Proof.
  unfold __init__. intros H.
  destruct (truth x) eqn:Ht; [|discriminate H]. cbn [negb] in H.
  destruct x as [[|n]|items|items]; try discriminate H.
  - assert (Hne : items <> []) by (destruct items; [discriminate Ht|discriminate]).
    destruct (init_sequence_Ok items self Hne H) as (numbers & H1 & H2 & H3 & H4).
    exists items, numbers. auto 10.
  - assert (Hne : items <> []) by (destruct items; [discriminate Ht|discriminate]).
    destruct (init_sequence_Ok items self Hne H) as (numbers & H1 & H2 & H3 & H4).
    exists items, numbers. auto 10.
Qed.

Lemma init_returns_only_for_sequences_witness :
  exists items numbers,
    (ints [1; 2] = PyList items \/ ints [1; 2] = PyTuple items) /\
    items <> [] /\
    items = map Num numbers /\
    coordinates (vec [1; 2]) = map Decimal_of_number numbers /\
    dimension (vec [1; 2]) = List.length items /\
    well_formed (vec [1; 2]).
Proof.
  apply (init_returns_only_for_sequences (ints [1; 2]) (vec [1; 2])).
  reflexivity.
Defined.

(** ** Precision *)

Lemma round_half_even_bounds c k :
  c / 10 ^ k <= Dec.round_half_even c k <= c / 10 ^ k + 1.
Proof.
  unfold Dec.round_half_even. cbv zeta.
  destruct (2 * (c mod 10 ^ k) ?= 10 ^ k); [destruct (Z.even _)|..]; lia.
Qed.

Lemma ndigits_bound n : 0 <= n -> n < 10 ^ prec -> Dec.ndigits n <= prec.
Proof.
  intros Hn Hlt. destruct (Z.eq_dec n 0) as [->|Hne].
  - vm_compute. discriminate.
  - apply ndigits_le; lia.
Qed.

Lemma fix_finite_rounded s c e d :
  0 <= c -> Dec.fix_finite prec s c e = Ok d -> rounded d.
Proof.
  intros Hc. unfold Dec.fix_finite.
  destruct (c =? 0) eqn:E0.
  - intros H. inversion H. subst. cbn [rounded].
    change (Dec.ndigits (Z.of_N 0)) with 1.
    unfold Dec.Etiny, Dec.Emax, Dec.Emin, prec. lia.
  - apply Z.eqb_neq in E0. cbv zeta.
    assert (Hpos : 0 < c) by lia.
    destruct (ndigits_spec c Hpos) as [Hlo Hhi].
    pose proof (digits_aux_pos (Z.to_nat (Z.log2 c)) c) as Hnd.
    fold (Dec.ndigits c) in Hnd.
    remember (Dec.ndigits c) as nd eqn:End.
    destruct (Dec.Etop prec <? nd + e - prec) eqn:E1; [discriminate|].
    apply Z.ltb_ge in E1.
    remember (Z.max (nd + e - prec) (Dec.Etiny prec)) as exp_min eqn:Eexp.
    destruct (e <? exp_min) eqn:E2.
    + apply Z.ltb_lt in E2.
      remember (if nd + e - exp_min <? 0 then 0
                else Dec.round_half_even c (exp_min - e)) as coeff eqn:Ecoeff.
      assert (Hcoeff : 0 <= coeff <= 10 ^ prec).
      { destruct (nd + e - exp_min <? 0) eqn:E3; subst coeff.
        - vm_compute. split; discriminate.
        - apply Z.ltb_ge in E3.
          pose proof (round_half_even_bounds c (exp_min - e)) as Hr.
          assert (Hk : 0 < 10 ^ (exp_min - e)) by (apply Z.pow_pos_nonneg; lia).
          assert (Hq : 0 <= c / 10 ^ (exp_min - e)) by (apply Z.div_pos; lia).
          assert (c / 10 ^ (exp_min - e) < 10 ^ (nd + e - exp_min)).
          { apply Z.div_lt_upper_bound; [assumption|].
            rewrite <- Z.pow_add_r by lia.
            replace (exp_min - e + (nd + e - exp_min)) with nd by lia.
            assumption. }
          assert (10 ^ (nd + e - exp_min) <= 10 ^ prec)
            by (apply Z.pow_le_mono_r; lia).
          lia. }
      destruct (prec <? Dec.ndigits coeff) eqn:E4.
      * destruct (Dec.Etop prec <? exp_min + 1) eqn:E5; [discriminate|].
        apply Z.ltb_ge in E5. intros H. inversion H. subst d. cbn [rounded].
        assert (Hdiv : 0 <= coeff / 10 < 10 ^ prec).
        { change (10 ^ prec) with 1000 in *.
          split; [apply Z.div_pos; lia|apply Z.div_lt_upper_bound; lia]. }
        rewrite Z2N.id by lia.
        pose proof (ndigits_bound (coeff / 10) (proj1 Hdiv) (proj2 Hdiv)).
        unfold Dec.Etop, Dec.Etiny, Dec.Emax, Dec.Emin, prec in *. lia.
      * destruct (Dec.Etop prec <? exp_min) eqn:E5; [discriminate|].
        apply Z.ltb_ge in E5. apply Z.ltb_ge in E4.
        intros H. inversion H. subst d. cbn [rounded].
        rewrite Z2N.id by lia.
        unfold Dec.Etop, Dec.Etiny, Dec.Emax, Dec.Emin, prec in *. lia.
    + apply Z.ltb_ge in E2. intros H. inversion H. subst d. cbn [rounded].
      rewrite Z2N.id by lia. rewrite <- End.
      unfold Dec.Etop, Dec.Etiny, Dec.Emax, Dec.Emin, prec in *. lia.
Qed.

Lemma add_rounded a b d : Dec.add prec a b = Ok d -> rounded d.
Proof.
  destruct a as [s1 c1 e1|sa|[|]], b as [s2 c2 e2|sb|[|]];
    cbn [Dec.add Dec.check_nans]; try discriminate;
    try (intros H; inversion H; exact I).
  - cbv zeta. destruct (_ =? 0); apply fix_finite_rounded; lia.
  - destruct (Bool.eqb sa sb); [|discriminate]. intros H; inversion H; exact I.
Qed.

Lemma sub_rounded a b d : Dec.sub prec a b = Ok d -> rounded d.
Proof.
  unfold Dec.sub. destruct (Dec.check_nans a b) as [[r|e]|] eqn:E.
  - intros H; inversion H; subst.
    destruct a as [? ? ?|?|[|]], b as [? ? ?|?|[|]]; inversion E; exact I.
  - discriminate.
  - apply add_rounded.
Qed.

Lemma mul_rounded a b d : Dec.mul prec a b = Ok d -> rounded d.
Proof.
  destruct a as [s1 c1 e1|sa|[|]], b as [s2 c2 e2|sb|[|]];
    cbn [Dec.mul Dec.check_nans]; try discriminate;
    try (intros H; inversion H; exact I).
  - apply fix_finite_rounded; lia.
  - destruct (c1 =? 0)%N; [discriminate|]. intros H; inversion H; exact I.
  - destruct (c2 =? 0)%N; [discriminate|]. intros H; inversion H; exact I.
Qed.

Lemma neg_rounded a d : Dec.neg prec a = Ok d -> rounded d.
Proof.
  destruct a as [s c e|s|[|]]; cbn [Dec.neg]; try discriminate;
    try (intros H; inversion H; exact I).
  apply fix_finite_rounded; lia.
Qed.

Lemma elementwise_rounded op self v r :
  (forall a b d, op a b = Ok d -> rounded d) ->
  (new_coordinates <-
     comprehension (fun '(x, y) => op x y)
       (zip (coordinates self) (coordinates v)) ;;
   Vector_of new_coordinates) = Ok r ->
  Forall rounded (coordinates r).
Proof.
  intros Hop H. apply bind_Ok in H as (cs & Hcs & H).
  apply Vector_of_Ok in H as (-> & _). cbn [coordinates].
  eapply comprehension_Forall; [|exact Hcs].
  intros [x y] d. apply Hop.
Qed.

Lemma times_scalar_rounded self s r :
  times_scalar self s = Ok r -> Forall rounded (coordinates r).
Proof.
  intros H. apply bind_Ok in H as (cs & Hcs & H).
  apply Vector_of_Ok in H as (-> & _). cbn [coordinates].
  eapply comprehension_Forall; [|exact Hcs].
  intros x d. apply mul_rounded.
Qed.

Lemma normalized_rounded self r :
  normalized self = Ok r -> Forall rounded (coordinates r).
Proof.
  intros H. apply try_except_Ok in H; [|eauto].
  apply bind_Ok in H as (m & _ & H). apply bind_Ok in H as (q & _ & H).
  now apply times_scalar_rounded in H.
Qed.

Lemma component_parallel_to_rounded self basis r :
  component_parallel_to self basis = Ok r -> Forall rounded (coordinates r).
Proof.
  intros H. apply try_except_Ok in H; [|intros e; apply handler_raises].
  apply bind_Ok in H as (u & _ & H). apply bind_Ok in H as (w & _ & H).
  now apply times_scalar_rounded in H.
Qed.

Lemma cross_product_rounded self v r :
  cross_product self v = Ok r -> Forall rounded (coordinates r).
Proof.
  intros H. apply try_except_Ok in H; [|intros e; cbv zeta; apply handler_raises].
  apply bind_Ok in H as ([[x_1 y_1] z_1] & _ & H).
  apply bind_Ok in H as ([[x_2 y_2] z_2] & _ & H).
  apply bind_Ok in H as (a1 & _ & H). apply bind_Ok in H as (b1 & _ & H).
  apply bind_Ok in H as (c_x & Hx & H).
  apply bind_Ok in H as (a2 & _ & H). apply bind_Ok in H as (b2 & _ & H).
  apply bind_Ok in H as (d & _ & H). apply bind_Ok in H as (c_y & Hy & H).
  apply bind_Ok in H as (a3 & _ & H). apply bind_Ok in H as (b3 & _ & H).
  apply bind_Ok in H as (c_z & Hz & H).
  rewrite Vector_of_cons in H. inversion H; subst. cbn [coordinates].
  repeat constructor;
    eauto using sub_rounded, neg_rounded.
Qed.

(** X13. Every coordinate of a vector returned by [plus], [minus],
    [times_scalar], [normalized], [component_parallel_to],
    [component_orthogonal_to] or [cross_product] is rounded to the
    context: at most three significant digits, an exponent not below
    [Etiny] and an adjusted exponent not above [Emax]. *)
Theorem results_are_rounded (self v r : Vector) (scalar : number) :
  plus self v = Ok r \/ minus self v = Ok r \/
  times_scalar self scalar = Ok r \/ normalized self = Ok r \/
  component_parallel_to self v = Ok r \/
  component_orthogonal_to self v = Ok r \/
  cross_product self v = Ok r ->
  Forall rounded (coordinates r).
Proof.
  intros [H|[H|[H|[H|[H|[H|H]]]]]].
  - revert H. apply elementwise_rounded, add_rounded.
  - revert H. apply elementwise_rounded, sub_rounded.
  - now apply times_scalar_rounded in H.
  - now apply normalized_rounded in H.
  - now apply component_parallel_to_rounded in H.
  - apply try_except_Ok in H; [|intros e; apply handler_raises].
    apply bind_Ok in H as (p & _ & H).
    revert H. apply elementwise_rounded, sub_rounded.
  - now apply cross_product_rounded in H.
Qed.

Lemma results_are_rounded_witness :
  Forall rounded (coordinates (mkVector [Finite false 124 1] 1)).
Proof.
  apply (results_are_rounded (vec [1234]) (vec [1]) _ (PyInt 0)).
  left. vm_compute. reflexivity.
Defined.


(** ** Scaling by one *)

Lemma fix_finite_idempotent s c e :
  rounded (Finite s c e) ->
  Dec.fix_finite prec s (Z.of_N c) e = Ok (Finite s c e).
Proof.
  cbn [rounded]. intros (Hd & Hlo & Hhi). unfold Dec.fix_finite.
  destruct (Z.of_N c =? 0) eqn:E0.
  - apply Z.eqb_eq in E0. assert (c = 0%N) by lia. subst c.
    change (Dec.ndigits (Z.of_N 0)) with 1 in *.
    f_equal. f_equal. unfold Dec.Etiny, Dec.Emax, Dec.Emin, prec in *. lia.
  - cbv zeta.
    destruct (Dec.Etop prec <? Dec.ndigits (Z.of_N c) + e - prec) eqn:E1.
    { apply Z.ltb_lt in E1.
      unfold Dec.Etop, Dec.Etiny, Dec.Emax, Dec.Emin, prec in *. lia. }
    destruct (e <? Z.max (Dec.ndigits (Z.of_N c) + e - prec) (Dec.Etiny prec))
      eqn:E2.
    { apply Z.ltb_lt in E2.
      unfold Dec.Etop, Dec.Etiny, Dec.Emax, Dec.Emin, prec in *. lia. }
    now rewrite N2Z.id.
Qed.

Lemma mul_one d :
  not_nan d -> rounded d -> Dec.mul prec (Finite false 1 0) d = Ok d.
Proof.
  destruct d as [s c e|s|sg]; cbn [not_nan]; [| |contradiction]; intros _ Hr.
  - cbn [Dec.mul Dec.check_nans xorb].
    replace (Z.of_N 1 * Z.of_N c) with (Z.of_N c) by lia.
    replace (0 + e) with e by lia. now apply fix_finite_idempotent.
  - reflexivity.
Qed.

Lemma comprehension_id {A} (f : A -> result A) xs :
  Forall (fun x => f x = Ok x) xs -> comprehension f xs = Ok xs.
Proof.
  induction 1 as [|x xs Hx _ IH]; [reflexivity|].
  cbn [comprehension]. now rewrite Hx, IH.
Qed.

(** X14. On a vector built by the constructor, without NaN,
    [times_scalar(1)] returns the same coordinates and dimension exactly
    when every coordinate is already rounded to the context; a
    coordinate of more than three digits comes back rounded. *)
Theorem times_scalar_one (self : Vector) :
  well_formed self -> nan_free self ->
  (times_scalar self (PyInt 1) = Ok self <-> Forall rounded (coordinates self)).
Proof.
  intros [Hdim Hpos] Hnan. split.
  - apply times_scalar_rounded.
  - intros Hr. unfold times_scalar.
    change (Decimal_of_number (PyInt 1)) with (Finite false 1 0).
    rewrite comprehension_id.
    + cbn [bind]. destruct self as [[|d ds] n]; cbn [coordinates dimension] in *.
      * cbn in Hdim. lia.
      * rewrite Vector_of_cons. now rewrite Hdim.
    + unfold nan_free in Hnan. rewrite Forall_forall in *.
      intros x Hx. apply mul_one; auto.
Qed.

Lemma times_scalar_one_witness :
  times_scalar (vec [1; 2]) (PyInt 1) = Ok (vec [1; 2]) <->
  Forall rounded (coordinates (vec [1; 2])).
Proof.
  apply (times_scalar_one (vec [1; 2])).
  - split; cbn; lia.
  - repeat constructor.
Defined.


(** ** Equality

    Python takes two items of a tuple that are the same object as equal
    without comparing them, and compares them by value otherwise. For a
    number the two agree; for a NaN, equal to nothing by value, they do
    not, and the embedding keeps no identity of a coordinate. The
    properties of [__eq__] are stated for vectors without NaN. *)

Lemma eq_not_nan x y :
  not_nan x -> not_nan y -> Dec.eq x y = Ok (Dec.eqb x y).
Proof. destruct x as [? ? ?|?|?], y as [? ? ?|?|?]; cbn; tauto. Qed.

Lemma eqb_rescale a b e1 e2 E :
  E <= e1 -> E <= e2 ->
  (a * 10 ^ (e1 - Z.min e1 e2) =? b * 10 ^ (e2 - Z.min e1 e2))
  = (a * 10 ^ (e1 - E) =? b * 10 ^ (e2 - E)).
Proof.
  intros H1 H2. set (m := Z.min e1 e2).
  assert (Hm : E <= m) by (unfold m; lia).
  assert (Hp : 0 < 10 ^ (m - E)) by (apply Z.pow_pos_nonneg; lia).
  replace (e1 - E) with ((e1 - m) + (m - E)) by lia.
  replace (e2 - E) with ((e2 - m) + (m - E)) by lia.
  rewrite !Z.pow_add_r by (unfold m; lia).
  rewrite !Z.mul_assoc.
  destruct (a * 10 ^ (e1 - m) =? b * 10 ^ (e2 - m)) eqn:E1; symmetry.
  - apply Z.eqb_eq in E1. apply Z.eqb_eq. now rewrite E1.
  - apply Z.eqb_neq in E1. apply Z.eqb_neq. intros H.
    apply Z.mul_cancel_r in H; lia.
Qed.

Lemma Dec_eqb_refl x : not_nan x -> Dec.eqb x x = true.
Proof.
  destruct x as [s c e|s|sg]; cbn [not_nan Dec.eqb]; [| |contradiction]; intros _.
  - apply Z.eqb_refl.
  - apply eqb_reflx.
Qed.

Lemma Dec_eqb_sym x y : Dec.eqb x y = Dec.eqb y x.
Proof.
  destruct x as [s1 c1 e1|s1|sg1], y as [s2 c2 e2|s2|sg2]; cbn [Dec.eqb];
    try reflexivity.
  - rewrite (Z.min_comm e2 e1). apply Z.eqb_sym.
  - destruct s1, s2; reflexivity.
Qed.

Lemma Dec_eqb_trans x y z :
  Dec.eqb x y = true -> Dec.eqb y z = true -> Dec.eqb x z = true.
Proof.
  destruct x as [s1 c1 e1|s1|sg1], y as [s2 c2 e2|s2|sg2],
           z as [s3 c3 e3|s3|sg3]; cbn [Dec.eqb]; try discriminate.
  - set (E := Z.min e1 (Z.min e2 e3)).
    rewrite (eqb_rescale _ _ e1 e2 E), (eqb_rescale _ _ e2 e3 E),
      (eqb_rescale _ _ e1 e3 E) by (unfold E; lia).
    rewrite !Z.eqb_eq. congruence.
  - destruct s1, s2, s3; cbn; congruence.
Qed.

Lemma tuple_eq_spec xs ys :
  Forall not_nan xs -> Forall not_nan ys ->
  exists b, tuple_eq xs ys = Ok b /\ (b = true <-> Forall2 same_value xs ys).
Proof.
  intros Hx. revert ys. induction Hx as [|x xs Hx _ IH]; intros ys Hy.
  - destruct ys as [|y ys]; cbn [tuple_eq].
    + exists true. split; [reflexivity|]. split; [constructor|reflexivity].
    + exists false. split; [reflexivity|].
      split; [discriminate|intros H; inversion H].
  - destruct Hy as [|y ys Hy Hys]; cbn [tuple_eq].
    + exists false. split; [reflexivity|].
      split; [discriminate|intros H; inversion H].
    + rewrite (eq_not_nan x y Hx Hy). cbn [bind].
      destruct (Dec.eqb x y) eqn:E.
      * destruct (IH ys Hys) as (b & Hb & Hiff). exists b.
        split; [exact Hb|]. rewrite Hiff. split.
        -- intros H. constructor; assumption.
        -- intros H. now inversion H.
      * exists false. split; [reflexivity|].
        split; [discriminate|]. intros H. inversion H; subst.
        unfold same_value in *. congruence.
Qed.

(** X15. On vectors without NaN coordinates [__eq__] raises nothing
    and is true exactly when the two have the same number of coordinates
    and corresponding coordinates have the same numerical value,
    whatever their exponents; [dimension] is not compared. *)
Theorem eq_by_value (self v : Vector) :
  nan_free self -> nan_free v ->
  exists b,
    __eq__ self v = Ok b /\
    (b = true <-> Forall2 same_value (coordinates self) (coordinates v)).
Proof. intros H1 H2. now apply tuple_eq_spec. Qed.

Lemma eq_by_value_witness :
  exists b,
    __eq__ (mkVector [Finite false 10 (-1)] 1) (vec [1]) = Ok b /\
    (b = true <->
     Forall2 same_value (coordinates (mkVector [Finite false 10 (-1)] 1))
       (coordinates (vec [1]))).
Proof.
  apply (eq_by_value (mkVector [Finite false 10 (-1)] 1) (vec [1]));
    repeat constructor.
Defined.


Lemma Forall2_same_value_refl xs : Forall not_nan xs -> Forall2 same_value xs xs.
Proof. induction 1; constructor; [now apply Dec_eqb_refl|assumption]. Qed.

Lemma Forall2_same_value_sym xs ys :
  Forall2 same_value xs ys -> Forall2 same_value ys xs.
Proof.
  induction 1; constructor; [|assumption].
  unfold same_value in *. now rewrite Dec_eqb_sym.
Qed.

Lemma Forall2_same_value_trans xs ys zs :
  Forall2 same_value xs ys -> Forall2 same_value ys zs ->
  Forall2 same_value xs zs.
Proof.
  intros H. revert zs. induction H as [|x y xs ys Hxy _ IH]; intros zs Hz.
  - inversion Hz. constructor.
  - inversion Hz; subst. constructor; [|now apply IH].
    unfold same_value in *. eapply Dec_eqb_trans; eassumption.
Qed.

Lemma tuple_eq_true xs ys :
  Forall not_nan xs -> Forall not_nan ys ->
  (tuple_eq xs ys = Ok true <-> Forall2 same_value xs ys).
Proof.
  intros Hx Hy. destruct (tuple_eq_spec xs ys Hx Hy) as (b & Hb & Hiff).
  rewrite Hb. rewrite <- Hiff. split; [now intros [= ->]|now intros ->].
Qed.

(** X16. On vectors without NaN coordinates [__eq__] is reflexive,
    symmetric and transitive. *)
Theorem eq_is_an_equivalence (a b c : Vector) :
  nan_free a -> nan_free b -> nan_free c ->
  __eq__ a a = Ok true /\
  __eq__ a b = __eq__ b a /\
  (__eq__ a b = Ok true -> __eq__ b c = Ok true -> __eq__ a c = Ok true).
Proof.
  intros Ha Hb Hc. unfold __eq__. split; [|split].
  - apply tuple_eq_true; [assumption..|]. now apply Forall2_same_value_refl.
  - destruct (tuple_eq_spec _ _ Ha Hb) as (x & Hx & Hix).
    destruct (tuple_eq_spec _ _ Hb Ha) as (y & Hy & Hiy).
    rewrite Hx, Hy. f_equal.
    destruct x, y; try reflexivity.
    + symmetry. apply Hiy. apply Forall2_same_value_sym. now apply Hix.
    + apply Hix. apply Forall2_same_value_sym. now apply Hiy.
  - rewrite !tuple_eq_true by assumption. apply Forall2_same_value_trans.
Qed.

Lemma eq_is_an_equivalence_witness :
  __eq__ (vec [1; 2]) (vec [1; 2]) = Ok true /\
  __eq__ (vec [1; 2]) (mkVector [Finite false 10 (-1); Finite false 200 (-2)] 2)
  = __eq__ (mkVector [Finite false 10 (-1); Finite false 200 (-2)] 2) (vec [1; 2]) /\
  (__eq__ (vec [1; 2]) (mkVector [Finite false 10 (-1); Finite false 200 (-2)] 2)
   = Ok true ->
   __eq__ (mkVector [Finite false 10 (-1); Finite false 200 (-2)] 2)
     (mkVector [Finite false 1 0; Finite false 2 0; Infinity false] 3) = Ok true ->
   __eq__ (vec [1; 2])
     (mkVector [Finite false 1 0; Finite false 2 0; Infinity false] 3) = Ok true).
Proof.
  apply (eq_is_an_equivalence (vec [1; 2])
           (mkVector [Finite false 10 (-1); Finite false 200 (-2)] 2)
           (mkVector [Finite false 1 0; Finite false 2 0; Infinity false] 3));
    repeat constructor.
Defined.


(** ** Orthogonality *)

Lemma dot_comm self v : dot self v = dot v self.
Proof.
  unfold dot. f_equal.
  apply comprehension_zip_swap. intros x y. apply mul_comm.
Qed.

(** X17. [is_orthogonal_to] is symmetric in its two vectors: the same
    boolean, or the same exception, whichever is asked of the other. *)
Theorem is_orthogonal_to_symmetric (self v : Vector) (tolerance : float) :
  is_orthogonal_to self v tolerance = is_orthogonal_to v self tolerance.
Proof. unfold is_orthogonal_to. now rewrite dot_comm. Qed.


Lemma signed_zero s : Dec.signed s 0 = 0.
Proof. now destruct s. Qed.

Lemma mul_zero_finite a b :
  Dec.is_zero_coeff a = true -> finite b ->
  exists s e, Dec.mul prec a b = Ok (Finite s 0 e).
Proof.
  destruct a as [s1 [|c1] e1|s1|sg1]; try discriminate.
  destruct b as [s2 c2 e2|s2|sg2]; cbn [finite]; try contradiction.
  intros _ _. cbn [Dec.mul Dec.check_nans]. unfold Dec.fix_finite.
  cbn [Z.of_N Z.mul Z.eqb]. eauto.
Qed.

Lemma add_zeros s1 e1 s2 e2 :
  exists s e, Dec.add prec (Finite s1 0 e1) (Finite s2 0 e2) = Ok (Finite s 0 e).
Proof.
  cbn [Dec.add Dec.check_nans]. cbv zeta. rewrite !signed_zero.
  cbn [Z.mul Z.add Z.eqb]. unfold Dec.fix_finite. cbn [Z.eqb]. eauto.
Qed.

Lemma sum_from_zero_products acc ds :
  acc = PyInt 0 \/ (exists s e, acc = PyDecimal (Finite s 0 e)) ->
  Forall (fun d => exists s e, d = Finite s 0 e) ds ->
  exists n, sum_from acc ds = Ok n /\
            (n = PyInt 0 \/ exists s e, n = PyDecimal (Finite s 0 e)).
Proof.
  intros Hacc Hds. revert acc Hacc.
  induction Hds as [|d ds (s & e & ->) _ IH]; intros acc Hacc.
  - exists acc. split; [reflexivity|assumption].
  - cbn [sum_from].
    assert (Hadd : exists s' e', number_add acc (PyDecimal (Finite s 0 e))
                                 = Ok (PyDecimal (Finite s' 0 e'))).
    { destruct Hacc as [-> | (s0 & e0 & ->)]; cbn [number_add Decimal_of_number].
      - change (Decimal_of_Z 0) with (Finite false 0 0).
        destruct (add_zeros false 0 s e) as (s' & e' & ->). cbn [bind]. eauto.
      - destruct (add_zeros s0 e0 s e) as (s' & e' & ->). cbn [bind]. eauto. }
    destruct Hadd as (s' & e' & ->). cbn [bind]. apply IH. right. eauto.
Qed.

Lemma dot_zero_vector self v :
  zero_vector self -> Forall finite (coordinates v) ->
  exists n, dot self v = Ok n /\
            (n = PyInt 0 \/ exists s e, n = PyDecimal (Finite s 0 e)).
Proof.
  unfold zero_vector, dot. intros Hz Hf.
  assert (Hc : exists ds,
             comprehension (fun '(x, y) => Dec.mul prec x y)
               (zip (coordinates self) (coordinates v)) = Ok ds /\
             Forall (fun d => exists s e, d = Finite s 0 e) ds).
  { revert Hf. generalize (coordinates v).
    induction Hz as [|x xs Hx _ IH]; intros ys Hf.
    - exists []. split; [reflexivity|constructor].
    - destruct Hf as [|y ys Hy Hys].
      + exists []. split; [reflexivity|constructor].
      + unfold zip. cbn [combine comprehension].
        destruct (mul_zero_finite x y Hx Hy) as (s & e & ->). cbn [bind].
        destruct (IH ys Hys) as (ds & Hds & Hall). unfold zip in Hds.
        rewrite Hds. cbn [bind]. exists (Finite s 0 e :: ds).
        split; [reflexivity|]. constructor; eauto. }
  destruct Hc as (ds & -> & Hall). cbn [bind]. unfold sum.
  apply sum_from_zero_products; auto.
Qed.

Lemma to_Decimal_positive tolerance :
  Flt.ltb Flt.zero tolerance = true ->
  Flt.to_Decimal tolerance = Infinity false \/
  exists c e, Flt.to_Decimal tolerance = Finite false c e /\ (0 < c)%N.
Proof.
  destruct tolerance as [s|[|]| |[|] m e]; try discriminate; intros _.
  - now left.
  - right. cbn [Flt.to_Decimal].
    destruct (0 <=? e) eqn:E.
    + eexists _, _. split; [reflexivity|].
      apply Z.leb_le in E.
      assert (0 < Z.pos m * 2 ^ e)
        by (apply Z.mul_pos_pos; [lia|apply Z.pow_pos_nonneg; lia]).
      lia.
    + destruct (Flt.lowest_terms m (Z.to_nat (- e))) as [n k].
      eexists _, _. split; [reflexivity|].
      assert (0 < Z.pos n * 5 ^ Z.of_nat k)
        by (apply Z.mul_pos_pos; [lia|apply Z.pow_pos_nonneg; lia]).
      lia.
Qed.

Lemma zero_lt_positive s e tolerance :
  Flt.ltb Flt.zero tolerance = true ->
  Dec.lt (Finite s 0 e) (Flt.to_Decimal tolerance) = Ok true.
Proof.
  intros H. destruct (to_Decimal_positive tolerance H) as [-> | (c & e' & -> & Hc)].
  - reflexivity.
  - cbn [Dec.lt]. cbv zeta. rewrite signed_zero. cbn [Z.mul Dec.signed].
    f_equal. apply Z.ltb_lt. apply Z.mul_pos_pos; [lia|].
    apply Z.pow_pos_nonneg; lia.
Qed.

(** X18. For a positive tolerance, a vector of zeros is orthogonal to
    every vector of finite coordinates, and every such vector to it. *)
Theorem zero_vector_is_orthogonal (self v : Vector) (tolerance : float) :
  zero_vector self -> Forall finite (coordinates v) ->
  Flt.ltb Flt.zero tolerance = true ->
  is_orthogonal_to self v tolerance = Ok true /\
  is_orthogonal_to v self tolerance = Ok true.
Proof.
  intros Hz Hf Ht.
  assert (H : is_orthogonal_to self v tolerance = Ok true).
  { unfold is_orthogonal_to.
    destruct (dot_zero_vector self v Hz Hf) as (n & -> & Hn). cbn [bind].
    destruct Hn as [-> | (s & e & ->)].
    - cbn [number_abs bind Z.abs number_lt_float].
      destruct (Flt.is_nan tolerance) eqn:En.
      + destruct tolerance; discriminate.
      + change (Decimal_of_Z 0) with (Finite false 0 0).
        now apply zero_lt_positive.
    - cbn [number_abs Dec.abs]. unfold Dec.fix_finite. cbn [Z.of_N Z.eqb bind].
      cbn [number_lt_float]. now apply zero_lt_positive. }
  split; [exact H|]. unfold is_orthogonal_to in *. now rewrite dot_comm.
Qed.

Lemma zero_vector_is_orthogonal_witness :
  is_orthogonal_to (vec [0; 0]) (vec [3; 4]) default_tolerance = Ok true /\
  is_orthogonal_to (vec [3; 4]) (vec [0; 0]) default_tolerance = Ok true.
Proof.
  apply (zero_vector_is_orthogonal (vec [0; 0]) (vec [3; 4]) default_tolerance).
  - repeat constructor.
  - repeat constructor.
  - vm_compute. reflexivity.
Defined.

(** ** A vector and itself *)

Lemma shr_1_nonneg mrs : 0 <= shr_m mrs -> 0 <= shr_m (shr_1 mrs).
Proof.
  destruct mrs as [m r s]. cbn [shr_m]. intros Hm.
  destruct m as [|[p|p|]|p]; cbn; lia.
Qed.

Lemma iter_pos_shr_1_nonneg p mrs :
  0 <= shr_m mrs -> 0 <= shr_m (iter_pos shr_1 p mrs).
Proof.
  revert mrs. induction p as [p IH|p IH|]; intros mrs H; cbn [iter_pos].
  - apply IH, IH. now apply shr_1_nonneg.
  - apply IH, IH. assumption.
  - now apply shr_1_nonneg.
Qed.

Lemma shr_fexp_nonneg m e l :
  0 <= m -> 0 <= shr_m (fst (shr_fexp Flt.prec Flt.emax m e l)).
Proof.
  intros Hm. unfold shr_fexp, shr.
  assert (H0 : 0 <= shr_m (shr_record_of_loc m l))
    by (destruct l as [|[| |]]; exact Hm).
  destruct (fexp Flt.prec Flt.emax (Zdigits2 m + e) - e); cbn [fst]; auto.
  now apply iter_pos_shr_1_nonneg.
Qed.

Lemma binary_round_aux_not_nan s m e l :
  0 <= m -> Flt.is_nan (binary_round_aux Flt.prec Flt.emax s m e l) = false.
Proof.
  intros Hm. unfold binary_round_aux.
  pose proof (shr_fexp_nonneg m e l Hm) as H1.
  destruct (shr_fexp Flt.prec Flt.emax m e l) as [mrs' e']. cbn [fst] in H1.
  assert (Hr : 0 <= round_nearest_even (shr_m mrs') (loc_of_shr_record mrs')).
  { unfold round_nearest_even.
    destruct (loc_of_shr_record mrs') as [|[| |]]; try lia.
    destruct (IntDef.Z.even _); lia. }
  pose proof (shr_fexp_nonneg _ e' loc_Exact Hr) as H2.
  destruct (shr_fexp Flt.prec Flt.emax _ e' loc_Exact) as [mrs'' e''].
  cbn [fst] in H2.
  destruct (shr_m mrs''); [reflexivity| |lia].
  now destruct (e'' <=? Flt.emax - Flt.prec).
Qed.

Lemma of_ratio_not_nan s n d :
  0 <= n -> 0 < d -> Flt.is_nan (Flt.of_ratio s n d) = false.
Proof.
  intros Hn Hd. unfold Flt.of_ratio, SFdiv_core_binary. cbv zeta.
  match goal with
  | |- context [IntDef.Z.div_eucl ?a d] =>
      assert (Ha : 0 <= a);
      [|pose proof (Z.div_pos a d Ha Hd) as Hq;
        unfold Z.div in Hq; change Z.div_eucl with IntDef.Z.div_eucl in Hq;
        destruct (IntDef.Z.div_eucl a d) as [q r]]
  end.
  - destruct (_ - _ - _); [assumption| |lia].
    apply Z.shiftl_nonneg. assumption.
  - cbn [fst] in Hq. now apply binary_round_aux_not_nan.
Qed.

Lemma of_decimal_not_nan s c e :
  0 <= c -> Flt.is_nan (Flt.of_decimal s c e) = false.
Proof.
  intros Hc. unfold Flt.of_decimal. cbv zeta.
  destruct (c =? 0); [reflexivity|].
  destruct (310 <=? _); [reflexivity|].
  destruct (_ <? -330); [reflexivity|].
  destruct (0 <=? e) eqn:E.
  - apply Z.leb_le in E. apply of_ratio_not_nan; [|lia].
    apply Z.mul_nonneg_nonneg; [assumption|]. apply Z.pow_nonneg. lia.
  - apply Z.leb_gt in E. apply of_ratio_not_nan; [assumption|].
    apply Z.pow_pos_nonneg; lia.
Qed.

Lemma pow2_not_nan a d : not_nan a -> Dec.pow2 prec a = Ok d -> not_nan d.
Proof.
  destruct a as [s c e|s|sg]; cbn [not_nan Dec.pow2]; [| |contradiction];
    intros _ H.
  - destruct (c =? 0)%N; [inversion H; exact I|].
    apply bind_Ok in H as (r & Hr & H).
    apply fix_finite_Finite in Hr as (s' & c' & e' & ->).
    apply fix_finite_Finite in H as (s'' & c'' & e'' & ->). exact I.
  - inversion H. exact I.
Qed.

Lemma add_not_nan p a b d :
  not_nan a -> not_nan b -> Dec.add p a b = Ok d -> not_nan d.
Proof.
  destruct a as [s1 c1 e1|s1|sg1]; cbn [not_nan]; [| |contradiction];
    (destruct b as [s2 c2 e2|s2|sg2]; cbn [not_nan]; [| |contradiction]);
    intros _ _; cbn [Dec.add Dec.check_nans]; cbv zeta; intros H;
    try (inversion H; exact I).
  - destruct (_ =? 0);
      apply fix_finite_Finite in H as (s & c & e & ->); exact I.
  - destruct (Bool.eqb s1 s2); [inversion H; exact I|discriminate].
Qed.

Lemma div_not_nan p a b d :
  not_nan a -> not_nan b -> Dec.div p a b = Ok d -> not_nan d.
Proof.
  destruct a as [s1 c1 e1|s1|sg1]; cbn [not_nan]; [| |contradiction];
    (destruct b as [s2 c2 e2|s2|sg2]; cbn [not_nan]; [| |contradiction]);
    intros _ _; cbn [Dec.div Dec.check_nans]; cbv zeta; intros H;
    try (inversion H; exact I); try discriminate.
  repeat match type of H with
         | (if ?b then _ else _) = _ => destruct b
         | (let '(_, _) := ?x in _) = _ => destruct x
         end; try discriminate;
    apply fix_finite_Finite in H as (s & c & e & ->); exact I.
Qed.

Lemma sum_from_not_nan acc ds n :
  acc = PyInt 0 \/ (exists d, acc = PyDecimal d /\ not_nan d) ->
  Forall not_nan ds -> sum_from acc ds = Ok n ->
  n = PyInt 0 \/ (exists d, n = PyDecimal d /\ not_nan d).
Proof.
  intros Hacc Hds. revert acc Hacc.
  induction Hds as [|x ds Hx _ IH]; intros acc Hacc H.
  - inversion H; subst. assumption.
  - cbn [sum_from] in H. apply bind_Ok in H as (acc' & Hadd & H).
    apply (IH acc'); [|exact H]. right.
    destruct Hacc as [-> | (d & -> & Hd)]; cbn [number_add Decimal_of_number] in Hadd;
      apply bind_Ok in Hadd as (d' & Hd' & Hadd); inversion Hadd; subst;
      exists d'; (split; [reflexivity|]);
      eapply add_not_nan; try exact Hd'; auto; exact I.
Qed.

Lemma to_Decimal_not_nan m : Flt.is_nan m = false -> not_nan (Flt.to_Decimal m).
Proof.
  destruct m as [s|s| |s m e]; cbn [Flt.is_nan Flt.to_Decimal]; try discriminate;
    intros _; try exact I.
  destruct (0 <=? e); [exact I|].
  destruct (Flt.lowest_terms m (Z.to_nat (- e))). exact I.
Qed.

Lemma magnitude_not_nan self m :
  nan_free self -> magnitude self = Ok m -> Flt.is_nan m = false.
Proof.
  intros Hn H. apply bind_Ok in H as (sq & Hsq & H).
  apply bind_Ok in H as (t & Ht & H).
  assert (Hall : Forall not_nan sq).
  { clear Ht H. revert sq Hsq. unfold nan_free in Hn.
    induction Hn as [|x xs Hx _ IH]; intros sq Hsq.
    - inversion Hsq. constructor.
    - cbn [comprehension] in Hsq. apply bind_Ok in Hsq as (y & Hy & Hsq).
      apply bind_Ok in Hsq as (ys & Hys & Hsq). inversion Hsq; subst.
      constructor; [now apply (pow2_not_nan x)|now apply IH]. }
  apply sum_from_not_nan in Ht; [|now left|assumption].
  unfold sqrt, math_1 in H. apply bind_Ok in H as (x & Hx & H).
  assert (Hxn : Flt.is_nan x = false).
  { destruct Ht as [-> | (d & -> & Hd)].
    - inversion Hx. reflexivity.
    - destruct d as [s c e|s|sg]; [| |contradiction]; inversion Hx.
      + apply of_decimal_not_nan. lia.
      + reflexivity. }
  rewrite Hxn in H. cbn [negb] in H. rewrite andb_true_r in H.
  destruct (Flt.is_nan (Flt.sqrt x)) eqn:E; [discriminate|].
  destruct (_ && _); [discriminate|]. inversion H; subst. exact E.
Qed.

Lemma normalized_nan_free self u :
  nan_free self -> normalized self = Ok u -> nan_free u.
Proof.
  intros Hn H. apply try_except_Ok in H; [|eauto].
  apply bind_Ok in H as (m & Hm & H). apply bind_Ok in H as (q & Hq & H).
  apply magnitude_not_nan in Hm; [|assumption].
  apply div_not_nan in Hq; [|exact I|now apply to_Decimal_not_nan].
  apply bind_Ok in H as (cs & Hcs & H).
  apply Vector_of_Ok in H as (-> & _). unfold nan_free. cbn [coordinates].
  clear -Hn Hq Hcs. revert cs Hcs. unfold nan_free in Hn.
  induction Hn as [|x xs Hx _ IH]; intros cs Hcs.
  - inversion Hcs. constructor.
  - cbn [comprehension] in Hcs. apply bind_Ok in Hcs as (y & Hy & Hcs).
    apply bind_Ok in Hcs as (ys & Hys & Hcs). inversion Hcs; subst.
    constructor; [|now apply IH].
    eapply mul_not_nan; [| |exact Hy]; assumption.
Qed.

Lemma sum_bool_eqb_self xs :
  Forall not_nan xs ->
  (sum_bool (map (fun '(x, y) => Dec.eqb x y) (zip xs xs))
   =? Z.of_nat (List.length xs)) = true.
Proof.
  intros H.
  assert (Hall : forallb (fun '(x, y) => Dec.eqb x y) (zip xs xs) = true).
  { induction H as [|x xs Hx _ IH]; [reflexivity|].
    unfold zip in *. cbn [combine forallb]. rewrite IH, andb_true_r.
    destruct x as [s c e|s|sg]; [| |contradiction]; cbn [Dec.eqb].
    - apply Z.eqb_refl.
    - apply eqb_reflx. }
  rewrite <- forallb_id_map, <- sum_bool_all in Hall.
  unfold zip in *. now rewrite length_map, length_combine, Nat.min_id in Hall.
Qed.

Section SelfAngle.

Variable libm_acos : float -> float.

(** X19. A vector without NaN coordinates makes the angle [0], the
    integer of the fast path, with itself, in radians and in degrees,
    and is parallel to itself, whenever the call returns; the inverse
    cosine is not consulted. *)
Theorem parallel_to_itself (self : Vector) :
  nan_free self ->
  (forall in_degrees a,
     angle_with libm_acos self self in_degrees = Ok a -> a = PyInt 0) /\
  (forall b, is_parallel_to libm_acos self self = Ok b -> b = true).
Proof.
  intros Hn.
  assert (Ha : forall in_degrees a,
             angle_with libm_acos self self in_degrees = Ok a -> a = PyInt 0).
  { intros in_degrees a H.
    destruct (angle_with_Ok libm_acos _ _ _ _ H) as (u1 & u2 & H1 & H2).
    rewrite (angle_with_normalized libm_acos _ _ _ u1 u1 H1 H1) in H.
    rewrite sum_bool_eqb_self in H by (now apply (normalized_nan_free self)).
    now inversion H. }
  split; [exact Ha|].
  intros b H. unfold is_parallel_to in H.
  destruct (is_zero self default_tolerance) as [[|]|e]; cbn [bind] in H;
    try discriminate; [now inversion H|].
  destruct (angle_with libm_acos self self false) as [a|e] eqn:E;
    cbn [bind] in H; [|discriminate].
  rewrite (Ha false a E) in H. cbn in H. now inversion H.
Qed.


End SelfAngle.

Lemma parallel_to_itself_witness :
  (forall in_degrees a,
     angle_with (fun x => x) (vec [3; 4]) (vec [3; 4]) in_degrees = Ok a ->
     a = PyInt 0) /\
  (forall b, is_parallel_to (fun x => x) (vec [3; 4]) (vec [3; 4]) = Ok b ->
             b = true).
Proof.
  apply (parallel_to_itself (fun x => x) (vec [3; 4])).
  repeat constructor.
Defined.


(** ** No NaN from numbers *)

Lemma sub_not_nan p a b d :
  not_nan a -> not_nan b -> Dec.sub p a b = Ok d -> not_nan d.
Proof.
  intros Ha Hb. unfold Dec.sub.
  destruct a as [s1 c1 e1|s1|sg1]; cbn [not_nan] in Ha; [| |contradiction];
    (destruct b as [s2 c2 e2|s2|sg2]; cbn [not_nan] in Hb; [| |contradiction]);
    cbn [Dec.check_nans Dec.copy_negate]; apply add_not_nan; exact I.
Qed.

Lemma neg_not_nan p a d : not_nan a -> Dec.neg p a = Ok d -> not_nan d.
Proof.
  destruct a as [s c e|s|sg]; cbn [not_nan Dec.neg]; [| |contradiction];
    intros _ H.
  - apply fix_finite_Finite in H as (s' & c' & e' & ->). exact I.
  - inversion H. exact I.
Qed.

Lemma comprehension_zip_Forall {B} (P : Decimal -> Prop) (Q : B -> Prop)
  (f : Decimal * Decimal -> result B) xs ys rs :
  (forall x y r, P x -> P y -> f (x, y) = Ok r -> Q r) ->
  Forall P xs -> Forall P ys ->
  comprehension f (zip xs ys) = Ok rs -> Forall Q rs.
Proof.
  intros Hf Hx. revert ys rs. unfold zip.
  induction Hx as [|x xs Hx _ IH]; intros ys rs Hy H.
  - inversion H. constructor.
  - destruct Hy as [|y ys Hy Hys]; [inversion H; constructor|].
    cbn [combine comprehension] in H.
    apply bind_Ok in H as (r & Hr & H). apply bind_Ok in H as (rs' & Hrs & H).
    inversion H; subst. constructor; eauto.
Qed.

Lemma elementwise_nan_free op self v r :
  (forall a b d, not_nan a -> not_nan b -> op a b = Ok d -> not_nan d) ->
  nan_free self -> nan_free v ->
  (new_coordinates <-
     comprehension (fun '(x, y) => op x y)
       (zip (coordinates self) (coordinates v)) ;;
   Vector_of new_coordinates) = Ok r ->
  nan_free r.
Proof.
  intros Hop Hs Hv H. apply bind_Ok in H as (cs & Hcs & H).
  apply Vector_of_Ok in H as (-> & _). unfold nan_free. cbn [coordinates].
  eapply (comprehension_zip_Forall not_nan not_nan); [|exact Hs|exact Hv|exact Hcs].
  intros x y d. apply Hop.
Qed.

Lemma times_scalar_nan_free self s r :
  not_nan (Decimal_of_number s) -> nan_free self ->
  times_scalar self s = Ok r -> nan_free r.
Proof.
  intros Hs Hn H. apply bind_Ok in H as (cs & Hcs & H).
  apply Vector_of_Ok in H as (-> & _). unfold nan_free in *. cbn [coordinates].
  clear -Hs Hn Hcs. revert cs Hcs.
  induction Hn as [|x xs Hx _ IH]; intros cs Hcs.
  - inversion Hcs. constructor.
  - cbn [comprehension] in Hcs. apply bind_Ok in Hcs as (y & Hy & Hcs).
    apply bind_Ok in Hcs as (ys & Hys & Hcs). inversion Hcs; subst.
    constructor; [|now apply IH].
    eapply mul_not_nan; [| |exact Hy]; assumption.
Qed.

Lemma dot_not_nan self v n :
  nan_free self -> nan_free v -> dot self v = Ok n ->
  not_nan (Decimal_of_number n).
Proof.
  intros Hs Hv H. apply bind_Ok in H as (cs & Hcs & H).
  assert (Hall : Forall not_nan cs).
  { eapply (comprehension_zip_Forall not_nan not_nan);
      [|exact Hs|exact Hv|exact Hcs].
    intros x y d. apply mul_not_nan. }
  apply sum_from_not_nan in H; [|now left|assumption].
  destruct H as [-> | (d & -> & Hd)]; [exact I|exact Hd].
Qed.

Lemma component_parallel_to_nan_free self basis r :
  nan_free self -> nan_free basis ->
  component_parallel_to self basis = Ok r -> nan_free r.
Proof.
  intros Hs Hb H. apply try_except_Ok in H; [|intros e; apply handler_raises].
  apply bind_Ok in H as (u & Hu & H). apply bind_Ok in H as (w & Hw & H).
  apply normalized_nan_free in Hu; [|assumption].
  apply dot_not_nan in Hw; [|assumption..].
  now apply times_scalar_nan_free in H.
Qed.

Lemma cross_product_nan_free self v r :
  nan_free self -> nan_free v -> cross_product self v = Ok r -> nan_free r.
Proof.
  intros Hs Hv H.
  apply try_except_Ok in H; [|intros e; cbv zeta; apply handler_raises].
  apply bind_Ok in H as ([[x_1 y_1] z_1] & H1 & H).
  apply bind_Ok in H as ([[x_2 y_2] z_2] & H2 & H).
  unfold nan_free in Hs, Hv.
  destruct (coordinates self) as [|a1 [|b1 [|c1 [|? ?]]]]; try discriminate H1.
  destruct (coordinates v) as [|a2 [|b2 [|c2 [|? ?]]]]; try discriminate H2.
  inversion H1; inversion H2; subst. clear H1 H2.
  inversion Hs as [|? ? Hx1 Hs1]; subst. inversion Hs1 as [|? ? Hy1 Hs2]; subst.
  inversion Hs2 as [|? ? Hz1 _]; subst.
  inversion Hv as [|? ? Hx2 Hv1]; subst. inversion Hv1 as [|? ? Hy2 Hv2]; subst.
  inversion Hv2 as [|? ? Hz2 _]; subst.
  apply bind_Ok in H as (p1 & Hp1 & H). apply bind_Ok in H as (q1 & Hq1 & H).
  apply bind_Ok in H as (c_x & Hcx & H).
  apply bind_Ok in H as (p2 & Hp2 & H). apply bind_Ok in H as (q2 & Hq2 & H).
  apply bind_Ok in H as (d & Hd & H). apply bind_Ok in H as (c_y & Hcy & H).
  apply bind_Ok in H as (p3 & Hp3 & H). apply bind_Ok in H as (q3 & Hq3 & H).
  apply bind_Ok in H as (c_z & Hcz & H).
  rewrite Vector_of_cons in H. inversion H; subst.
  unfold nan_free. cbn [coordinates].
  apply mul_not_nan in Hp1, Hq1, Hp2, Hq2, Hp3, Hq3; try assumption.
  apply sub_not_nan in Hcx, Hd, Hcz; try assumption.
  apply neg_not_nan in Hcy; [|assumption].
  repeat constructor; assumption.
Qed.

(** X20. No NaN comes from numbers: on vectors without NaN coordinates
    (and for a scalar that is not NaN) a magnitude returned is not NaN,
    a dot product returned is not NaN, and no vector returned by [plus],
    [minus], [times_scalar], [normalized], [component_parallel_to],
    [component_orthogonal_to] or [cross_product] has a NaN coordinate. *)
Theorem no_nan_from_numbers (self v r : Vector) (scalar : number) :
  nan_free self -> nan_free v -> not_nan (Decimal_of_number scalar) ->
  (forall m, magnitude self = Ok m -> Flt.is_nan m = false) /\
  (forall n, dot self v = Ok n -> not_nan (Decimal_of_number n)) /\
  (plus self v = Ok r \/ minus self v = Ok r \/
   times_scalar self scalar = Ok r \/ normalized self = Ok r \/
   component_parallel_to self v = Ok r \/
   component_orthogonal_to self v = Ok r \/
   cross_product self v = Ok r ->
   nan_free r).
Proof.
  intros Hs Hv Hsc. split; [|split].
  - intros m. now apply magnitude_not_nan.
  - intros n. now apply dot_not_nan.
  - intros [H|[H|[H|[H|[H|[H|H]]]]]].
    + revert H. apply elementwise_nan_free; auto. apply add_not_nan.
    + revert H. apply elementwise_nan_free; auto. apply sub_not_nan.
    + now apply times_scalar_nan_free in H.
    + now apply normalized_nan_free in H.
    + now apply component_parallel_to_nan_free in H.
    + apply try_except_Ok in H; [|intros e; apply handler_raises].
      apply bind_Ok in H as (p & Hp & H).
      apply component_parallel_to_nan_free in Hp; [|assumption..].
      revert H. apply elementwise_nan_free; auto. apply sub_not_nan.
    + now apply cross_product_nan_free in H.
Qed.

Lemma no_nan_from_numbers_witness :
  (forall m, magnitude (vec [3; 4]) = Ok m -> Flt.is_nan m = false) /\
  (forall n, dot (vec [3; 4]) (vec [1; 2]) = Ok n ->
             not_nan (Decimal_of_number n)) /\
  (plus (vec [3; 4]) (vec [1; 2]) = Ok (vec [4; 6]) \/
   minus (vec [3; 4]) (vec [1; 2]) = Ok (vec [4; 6]) \/
   times_scalar (vec [3; 4]) (PyInt 2) = Ok (vec [4; 6]) \/
   normalized (vec [3; 4]) = Ok (vec [4; 6]) \/
   component_parallel_to (vec [3; 4]) (vec [1; 2]) = Ok (vec [4; 6]) \/
   component_orthogonal_to (vec [3; 4]) (vec [1; 2]) = Ok (vec [4; 6]) \/
   cross_product (vec [3; 4]) (vec [1; 2]) = Ok (vec [4; 6]) ->
   nan_free (vec [4; 6])).
Proof.
  apply (no_nan_from_numbers (vec [3; 4]) (vec [1; 2]) (vec [4; 6]) (PyInt 2));
    repeat constructor.
Defined.


(** ** Zero vectors from finite ones *)

Lemma sub_self_finite s c e :
  exists e', Dec.sub prec (Finite s c e) (Finite s c e) = Ok (Finite false 0 e').
Proof.
  unfold Dec.sub. cbn [Dec.check_nans Dec.copy_negate Dec.add]. cbv zeta.
  rewrite Z.min_id, Z.sub_diag.
  replace (Dec.signed s c * 10 ^ 0 + Dec.signed (negb s) c * 10 ^ 0) with 0
    by (unfold Dec.signed; destruct s; cbn [negb]; lia).
  cbn [Z.eqb]. unfold Dec.fix_finite. cbn [Z.eqb].
  rewrite andb_negb_r. eauto.
Qed.

Lemma comprehension_total {A B} (f : A -> result B) (P : A -> Prop)
  (Q : B -> Prop) xs :
  (forall x, P x -> exists y, f x = Ok y /\ Q y) ->
  Forall P xs ->
  exists ys, comprehension f xs = Ok ys /\ Forall Q ys /\
             List.length ys = List.length xs.
Proof.
  intros Hf. induction 1 as [|x xs Hx _ (ys & Hys & Hall & Hlen)].
  - exists []. repeat split. constructor.
  - destruct (Hf x Hx) as (y & Hy & Hq). exists (y :: ys).
    cbn [comprehension]. rewrite Hy, Hys. cbn [bind List.length].
    repeat split; [now constructor|now rewrite Hlen].
Qed.

(** X21. For a vector built by the constructor whose coordinates are
    all finite, [minus] of the vector and itself and [times_scalar(0)]
    both return, raising nothing, a vector of zeros of the same
    dimension. *)
Theorem zero_vector_from_finite (self : Vector) :
  well_formed self -> Forall finite (coordinates self) ->
  exists r z,
    minus self self = Ok r /\ times_scalar self (PyInt 0) = Ok z /\
    zero_vector r /\ zero_vector z /\
    dimension r = dimension self /\ dimension z = dimension self.
Proof.
  intros [Hdim Hpos] Hf.
  assert (Hsub : exists ds,
             comprehension (fun '(x, y) => Dec.sub prec x y)
               (zip (coordinates self) (coordinates self)) = Ok ds /\
             Forall (fun d => Dec.is_zero_coeff d = true) ds /\
             List.length ds = List.length (coordinates self)).
  { clear Hdim Hpos. induction Hf as [|x xs Hx _ (ds & Hds & Hall & Hlen)].
    - exists []. repeat split. constructor.
    - destruct x as [s c e| |]; cbn [finite] in Hx; try contradiction.
      destruct (sub_self_finite s c e) as (e' & He').
      exists (Finite false 0 e' :: ds). unfold zip in *.
      cbn [combine comprehension]. rewrite He', Hds. cbn [bind List.length].
      repeat split; [now constructor|now rewrite Hlen]. }
  assert (Hmul : exists ds,
             comprehension (fun x => Dec.mul prec (Decimal_of_number (PyInt 0)) x)
               (coordinates self) = Ok ds /\
             Forall (fun d => Dec.is_zero_coeff d = true) ds /\
             List.length ds = List.length (coordinates self)).
  { apply (comprehension_total _ finite); [|exact Hf].
    intros x Hx.
    destruct (mul_zero_finite (Finite false 0 0) x eq_refl Hx) as (s & e & H).
    exists (Finite s 0 e). split; [exact H|reflexivity]. }
  destruct Hsub as (ds & Hds & Hzs & Hls), Hmul as (ms & Hms & Hzm & Hlm).
  assert (Hne : forall l : list Decimal,
             List.length l = List.length (coordinates self) ->
             Vector_of l = Ok (mkVector l (List.length l))).
  { intros [|d l] Hl; [cbn [List.length] in Hl; lia|apply Vector_of_cons]. }
  exists (mkVector ds (List.length ds)), (mkVector ms (List.length ms)).
  unfold minus, times_scalar. rewrite Hds, Hms. cbn [bind].
  rewrite (Hne ds Hls), (Hne ms Hlm). unfold zero_vector.
  cbn [coordinates dimension]. repeat split; try assumption; congruence.
Qed.

Lemma zero_vector_from_finite_witness :
  exists r z,
    minus (vec [3; 4]) (vec [3; 4]) = Ok r /\
    times_scalar (vec [3; 4]) (PyInt 0) = Ok z /\
    zero_vector r /\ zero_vector z /\
    dimension r = dimension (vec [3; 4]) /\
    dimension z = dimension (vec [3; 4]).
Proof.
  apply (zero_vector_from_finite (vec [3; 4])).
  - split; cbn; lia.
  - repeat constructor.
Defined.
